(** * k8s-danger-scan: rule engine, scan orchestrator and aggregator

    A shallow embedding of the Go packages [types], [parser] (the resource
    model and [GetPodSpec]), [rules] (the twelve checks) and [scanner]
    ([Scan], [Diff], [GetSummary], [GetExitCode]), followed by the
    properties of the specification that concern them.

    Conventions of the embedding:
    - a Go [string] is a [string] (a sequence of bytes);
    - a Go [map[string]T] is a [gmap string T]; a nil map reads like the
      empty map, so both are [∅];
    - a Go slice is a [list]; a nil slice ranges like the empty one, so both
      are [[]];
    - a decoded YAML value ([interface{}]) is the tagged union [Value];
    - a comma-ok type assertion [v, ok := m[k].(T)] is a typed accessor
      returning an [option];
    - Go's [int] is a [Z] in the 64-bit two's-complement range, arithmetic
      on it wraps ([int_wrap]). *)

From stdpp Require Import gmap strings list fin_maps pretty.
From Stdlib Require Import ZArith Ascii.

Set Warnings "-register-all,-clear-no-such-hyp".
Local Open Scope string_scope.
Local Open Scope list_scope.
Local Open Scope nat_scope.

(** ** Go's [int] *)

Definition int_max : Z := (2 ^ 63 - 1)%Z.

(** Two's-complement wrap-around of a 64-bit signed integer. *)
Definition int_wrap (z : Z) : Z :=
  ((z + 2 ^ 63) mod 2 ^ 64 - 2 ^ 63)%Z.

(** [x++] on an [int]. *)
Definition int_incr (x : Z) : Z := int_wrap (x + 1).

(** ** Package [strings] (the three functions the rules call) *)

Module strings.

(** [strings.HasPrefix(s, prefix)]. *)
Definition HasPrefix (s prefix : string) : bool := String.prefix prefix s.

(** [strings.Contains(s, substr)]: [substr] occurs at some offset of [s]. *)
Fixpoint Contains (s substr : string) : bool :=
  HasPrefix s substr ||
  match s with
  | EmptyString => false
  | String _ s' => Contains s' substr
  end.

(** [strings.HasSuffix(s, suffix)]:
    [len(s) >= len(suffix) && s[len(s)-len(suffix):] == suffix]. *)
Definition HasSuffix (s suffix : string) : bool :=
  (String.length suffix <=? String.length s)%nat &&
  String.eqb
    (String.substring (String.length s - String.length suffix)
                      (String.length suffix) s)
    suffix.

End strings.

(** ** Control flow: a [for _, x := range l] loop whose body may [return] *)

(** [range_return body l] runs [body] on the elements of [l] in order; a body
    that evaluates to [Some r] returns [r] from the enclosing function, a
    body that evaluates to [None] falls through (or [continue]s) to the next
    element.  [None] overall means the loop ran to its end. *)
Fixpoint range_return {A R : Type} (body : A → option R) (l : list A) : option R :=
  match l with
  | [] => None
  | x :: rest =>
      match body x with
      | Some r => Some r
      | None => range_return body rest
      end
  end.

(** ** Package [types] *)

Module types.

(** [type Severity string]. *)
Definition Severity : Type := string.
Definition High : Severity := "HIGH".
Definition Medium : Severity := "MEDIUM".

(** [type Finding struct].  The field [Severity] is [Sev] here, the name
    [Severity] being taken by its type. *)
Record Finding : Type := mkFinding {
  RuleID : string;
  Sev : Severity;
  Kind : string;
  Name : string;
  Namespace : string;
  Reason : string;
  Impact : string;
  Fix : string;
}.

Record ScanResult : Type := mkScanResult {
  Findings : list Finding;
}.

(** [type Summary struct]: four [int] counters. *)
Record Summary : Type := mkSummary {
  SummaryHigh : Z;
  SummaryMedium : Z;
  ResourcesAffected : Z;
  NamespacesAffected : Z;
}.

(** [type OutputFormat string]. *)
Definition OutputFormat : Type := string.
Definition FormatHuman : OutputFormat := "human".
Definition FormatJSON : OutputFormat := "json".

Record ScanOptions : Type := mkScanOptions {
  IncludeMedium : bool;
  OutputFormat_ : OutputFormat;
}.

(** [type ExitCode int] and its four constants. *)
Definition ExitCode : Type := Z.
Definition ExitOK : ExitCode := 0%Z.
Definition ExitMedium : ExitCode := 1%Z.
Definition ExitHigh : ExitCode := 2%Z.
Definition ExitError : ExitCode := 3%Z.

End types.

(** ** Package [parser]: the resource model and pod-spec extraction *)

Module parser.

(** What yaml.v3 decodes into an [interface{}]: [nil], [bool], [int],
    a non-[int] number, [string], [[]interface{}] or
    [map[string]interface{}].  Only an integer that fits Go's [int] decodes
    to [int] ([VInt]); every other number is a [VFloat], kept as its
    literal. *)
Inductive Value : Type :=
  | VNull
  | VBool (b : bool)
  | VInt (n : Z)
  | VFloat (literal : string)
  | VStr (s : string)
  | VSeq (items : list Value)
  | VMap (fields : gmap string Value).

(** Comma-ok type assertions on the result of a map index expression:
    [m[k].(T)] fails both when [k] is missing ([m[k]] is the nil
    interface) and when the value has another dynamic type. *)
Definition asMap (v : option Value) : option (gmap string Value) :=
  match v with Some (VMap m) => Some m | _ => None end.
Definition asSeq (v : option Value) : option (list Value) :=
  match v with Some (VSeq l) => Some l | _ => None end.
Definition asBool (v : option Value) : option bool :=
  match v with Some (VBool b) => Some b | _ => None end.
Definition asInt (v : option Value) : option Z :=
  match v with Some (VInt n) => Some n | _ => None end.
Definition asString (v : option Value) : option string :=
  match v with Some (VStr s) => Some s | _ => None end.

(** [type Metadata struct]. *)
Record Metadata_t : Type := mkMetadata {
  Name : string;
  Namespace : string;
  Labels : gmap string string;
  Annotations : gmap string string;
}.

(** [type Rule struct]: one RBAC rule entry. *)
Record Rule : Type := mkRule {
  APIGroups : list string;
  Resources : list string;
  Verbs : list string;
}.

Record RoleRef_t : Type := mkRoleRef {
  RoleRefAPIGroup : string;
  RoleRefKind : string;
  RoleRefName : string;
}.

Record Subject : Type := mkSubject {
  SubjectKind : string;
  SubjectName : string;
  SubjectNamespace : string;
}.

(** [type K8sResource struct]. [RoleRef] is a pointer, hence optional. *)
Record K8sResource : Type := mkResource {
  APIVersion : string;
  Kind : string;
  Metadata : Metadata_t;
  Spec : gmap string Value;
  Rules : list Rule;
  RoleRef : option RoleRef_t;
  Subjects : list Subject;
  Raw : gmap string Value;
}.

(** The map literal of [IsSupportedKind]. *)
Definition supported : gmap string bool :=
  list_to_map
    [("Pod", true); ("Deployment", true); ("StatefulSet", true);
     ("DaemonSet", true); ("Job", true); ("CronJob", true);
     ("Service", true); ("Role", true); ("ClusterRole", true);
     ("RoleBinding", true); ("ClusterRoleBinding", true)].

(** [supported[kind]]: indexing a [map[string]bool] at a missing key gives
    [false]. *)
Definition IsSupportedKind (kind : string) : bool :=
  default false (supported !! kind).

(** [GetPodSpec]: the pair [(spec, ok)] is [Some spec] when [ok] and
    [None] otherwise. *)
Definition GetPodSpec (resource : K8sResource) : option (gmap string Value) :=
  if String.eqb (Kind resource) "Pod" then Some (Spec resource)
  else
    let viaTemplate :=
      match asMap (Spec resource !! "template") with
      | Some template => asMap (template !! "spec")
      | None => None
      end in
    match viaTemplate with
    | Some spec => Some spec
    | None =>
        match asMap (Spec resource !! "jobTemplate") with
        | Some jobTemplate =>
            match asMap (jobTemplate !! "spec") with
            | Some spec =>
                match asMap (spec !! "template") with
                | Some template =>
                    match asMap (template !! "spec") with
                    | Some podSpec => Some podSpec
                    | None => None
                    end
                | None => None
                end
            | None => None
            end
        | None => None
        end
    end.

End parser.

(** ** Package [rules]: the twelve checks *)

Module rules.

Import parser.

(** [type Rule func(resource parser.K8sResource) []types.Finding]. *)
Definition Rule : Type := K8sResource → list types.Finding.

(** The composite literal every rule returns: [Kind], [Name] and
    [Namespace] are copied from the resource, the rest is fixed per rule. *)
Definition finding (resource : K8sResource) (ruleID : string)
    (severity : types.Severity) (reason impact fix_ : string) : types.Finding :=
  {| types.RuleID := ruleID;
     types.Sev := severity;
     types.Kind := Kind resource;
     types.Name := Name (Metadata resource);
     types.Namespace := Namespace (Metadata resource);
     types.Reason := reason;
     types.Impact := impact;
     types.Fix := fix_ |}.

(** The value of a function whose trailing statement is [return nil]. *)
Definition or_nil (r : option (list types.Finding)) : list types.Finding :=
  default [] r.

(** *** 1. privileged-container *)

Definition privilegedFinding (resource : K8sResource) : types.Finding :=
  finding resource "privileged-container" types.High
    "Container runs in privileged mode"
    "Full host access if container is compromised"
    "Remove privileged flag or set to false".

Definition CheckPrivilegedContainer : Rule := λ resource,
  match GetPodSpec resource with
  | None => []
  | Some podSpec =>
      match asSeq (podSpec !! "containers") with
      | None => []
      | Some containers =>
          or_nil (range_return (λ c,
            match asMap (Some c) with
            | None => None
            | Some container =>
                match asMap (container !! "securityContext") with
                | None => None
                | Some securityContext =>
                    match asBool (securityContext !! "privileged") with
                    | Some true => Some [privilegedFinding resource]
                    | _ => None
                    end
                end
            end) containers)
      end
  end.

(** *** 2. hostpath-volume *)

Definition hostPathFinding (resource : K8sResource) : types.Finding :=
  finding resource "hostpath-volume" types.High
    "Uses hostPath volume mount"
    "Direct filesystem access enables container escape"
    "Use PersistentVolumes or emptyDir instead".

(** [_, hasHostPath := volume["hostPath"]] tests the presence of the key,
    whatever the value. *)
Definition CheckHostPath : Rule := λ resource,
  match GetPodSpec resource with
  | None => []
  | Some podSpec =>
      match asSeq (podSpec !! "volumes") with
      | None => []
      | Some volumes =>
          or_nil (range_return (λ v,
            match asMap (Some v) with
            | None => None
            | Some volume =>
                match volume !! "hostPath" with
                | Some _ => Some [hostPathFinding resource]
                | None => None
                end
            end) volumes)
      end
  end.

(** *** 3. docker-socket-mount *)

Definition dockerSocketFinding (resource : K8sResource) : types.Finding :=
  finding resource "docker-socket-mount" types.High
    "Mounts Docker socket from host"
    "Grants root-equivalent access to the node"
    "Remove Docker socket mount".

Definition CheckDockerSocket : Rule := λ resource,
  match GetPodSpec resource with
  | None => []
  | Some podSpec =>
      match asSeq (podSpec !! "volumes") with
      | None => []
      | Some volumes =>
          or_nil (range_return (λ v,
            match asMap (Some v) with
            | None => None
            | Some volume =>
                match asMap (volume !! "hostPath") with
                | Some hostPath =>
                    match asString (hostPath !! "path") with
                    | Some path =>
                        if strings.Contains path "/var/run/docker.sock"
                        then Some [dockerSocketFinding resource]
                        else None
                    | None => None
                    end
                | None => None
                end
            end) volumes)
      end
  end.

(** *** 4. runs-as-root *)

Definition runsAsRootFinding (resource : K8sResource) : types.Finding :=
  finding resource "runs-as-root" types.Medium
    "Container runs as root user (UID 0)"
    "Increases blast radius of container compromise"
    "Set runAsNonRoot: true or runAsUser to non-zero UID".

(** The pod-level defaults computed before the loop:
    [podRunAsNonRoot := false], set to [true] only by an explicit [true];
    [podRunAsUser := -1], overwritten by any [int]. *)
Definition podRunAsNonRoot (podSpec : gmap string Value) : bool :=
  match asMap (podSpec !! "securityContext") with
  | Some podSecurityContext =>
      match asBool (podSecurityContext !! "runAsNonRoot") with
      | Some true => true
      | _ => false
      end
  | None => false
  end.

Definition podRunAsUser (podSpec : gmap string Value) : Z :=
  match asMap (podSpec !! "securityContext") with
  | Some podSecurityContext =>
      match asInt (podSecurityContext !! "runAsUser") with
      | Some runAsUser => runAsUser
      | None => (-1)%Z
      end
  | None => (-1)%Z
  end.

(** The body of the loop over the containers. *)
Definition runsAsRootBody (resource : K8sResource)
    (podRunAsNonRoot : bool) (podRunAsUser : Z) (c : Value)
    : option (list types.Finding) :=
  match asMap (Some c) with
  | None => None
  | Some container =>
      match asMap (container !! "securityContext") with
      | None =>
          (* No container-level securityContext, check pod-level *)
          if negb podRunAsNonRoot && negb (podRunAsUser =? 0)%Z
          then Some [runsAsRootFinding resource]
          else None
      | Some securityContext =>
          let runAsNonRoot :=
            match asBool (securityContext !! "runAsNonRoot") with
            | Some val => val
            | None => podRunAsNonRoot
            end in
          let runAsUser :=
            match asInt (securityContext !! "runAsUser") with
            | Some val => val
            | None => podRunAsUser
            end in
          if negb runAsNonRoot && ((runAsUser =? 0)%Z || (runAsUser =? -1)%Z)
          then Some [runsAsRootFinding resource]
          else None
      end
  end.

Definition CheckRunsAsRoot : Rule := λ resource,
  match GetPodSpec resource with
  | None => []
  | Some podSpec =>
      match asSeq (podSpec !! "containers") with
      | None => []
      | Some containers =>
          or_nil (range_return
            (runsAsRootBody resource (podRunAsNonRoot podSpec) (podRunAsUser podSpec))
            containers)
      end
  end.

(** *** 5. privilege-escalation-allowed *)

Definition privilegeEscalationFinding (resource : K8sResource) : types.Finding :=
  finding resource "privilege-escalation-allowed" types.High
    "Allows privilege escalation within container"
    "Enables container escape via kernel exploits"
    "Set allowPrivilegeEscalation: false".

Definition CheckPrivilegeEscalation : Rule := λ resource,
  match GetPodSpec resource with
  | None => []
  | Some podSpec =>
      match asSeq (podSpec !! "containers") with
      | None => []
      | Some containers =>
          or_nil (range_return (λ c,
            match asMap (Some c) with
            | None => None
            | Some container =>
                match asMap (container !! "securityContext") with
                | None => None
                | Some securityContext =>
                    match asBool (securityContext !! "allowPrivilegeEscalation") with
                    | Some true => Some [privilegeEscalationFinding resource]
                    | _ => None
                    end
                end
            end) containers)
      end
  end.

(** *** 6. wildcard-rbac *)

Definition wildcardRBACFinding (resource : K8sResource) : types.Finding :=
  finding resource "wildcard-rbac" types.High
    "Grants wildcard permissions (verbs: *, resources: *)"
    "Complete cluster control for any principal with this role"
    "Specify explicit verbs and resources".

(** The flag set by [for _, x := range xs { if x == "*" { flag = true; break } }]. *)
Definition hasWildcard (xs : list string) : bool :=
  existsb (λ x, String.eqb x "*") xs.

Definition CheckWildcardRBAC : Rule := λ resource,
  if negb (String.eqb (Kind resource) "Role") &&
     negb (String.eqb (Kind resource) "ClusterRole")
  then []
  else
    or_nil (range_return (λ rule,
      let hasWildcardVerbs := hasWildcard (Verbs rule) in
      let hasWildcardResources := hasWildcard (Resources rule) in
      if hasWildcardVerbs && hasWildcardResources
      then Some [wildcardRBACFinding resource]
      else None) (Rules resource)).

(** *** 7. clusterrolebinding-default-sa *)

Definition defaultSAFinding (resource : K8sResource) : types.Finding :=
  finding resource "clusterrolebinding-default-sa" types.High
    "Binds permissions to default service account"
    "All pods without explicit SA inherit these permissions"
    "Create and use a dedicated ServiceAccount".

Definition CheckClusterRoleBindingDefaultSA : Rule := λ resource,
  if negb (String.eqb (Kind resource) "ClusterRoleBinding") &&
     negb (String.eqb (Kind resource) "RoleBinding")
  then []
  else
    or_nil (range_return (λ subject,
      if String.eqb (SubjectKind subject) "ServiceAccount" &&
         String.eqb (SubjectName subject) "default"
      then Some [defaultSAFinding resource]
      else None) (Subjects resource)).

(** *** 8. public-loadbalancer *)

Definition sensitiveNamespaces : gmap string bool :=
  list_to_map [("kube-system", true); ("prod", true); ("production", true)].

(** [Reason] is [fmt.Sprintf("LoadBalancer service in %s namespace", ns)]. *)
Definition publicLoadBalancerFinding (resource : K8sResource) : types.Finding :=
  finding resource "public-loadbalancer" types.High
    ("LoadBalancer service in " +:+ Namespace (Metadata resource) +:+ " namespace")
    "Exposes internal services directly to the internet"
    "Use ClusterIP with Ingress, or add explicit justification".

Definition CheckPublicLoadBalancer : Rule := λ resource,
  if negb (String.eqb (Kind resource) "Service") then []
  else if negb (default false (sensitiveNamespaces !! Namespace (Metadata resource)))
  then []
  else
    match asString (Spec resource !! "type") with
    | Some svcType =>
        if String.eqb svcType "LoadBalancer"
        then [publicLoadBalancerFinding resource]
        else []
    | None => []
    end.

(** *** 9. nodeport-service *)

Definition nodePortFinding (resource : K8sResource) : types.Finding :=
  finding resource "nodeport-service" types.Medium
    "NodePort service without justification annotation"
    "Bypasses ingress controls and exposes port on all nodes"
    "Use ClusterIP/LoadBalancer or add annotation: danger-scan/nodeport-justified".

Definition CheckNodePort : Rule := λ resource,
  if negb (String.eqb (Kind resource) "Service") then []
  else
    match asString (Spec resource !! "type") with
    | Some svcType =>
        if String.eqb svcType "NodePort"
        then
          match Annotations (Metadata resource) !! "danger-scan/nodeport-justified" with
          | None => [nodePortFinding resource]
          | Some _ => []
          end
        else []
    | None => []
    end.

(** *** 10. latest-image-tag *)

Definition latestTagFinding (resource : K8sResource) : types.Finding :=
  finding resource "latest-image-tag" types.Medium
    "Uses :latest or untagged image"
    "Non-reproducible deployments and potential supply chain risk"
    "Pin to specific image digest or semantic version".

Definition CheckLatestTag : Rule := λ resource,
  match GetPodSpec resource with
  | None => []
  | Some podSpec =>
      match asSeq (podSpec !! "containers") with
      | None => []
      | Some containers =>
          or_nil (range_return (λ c,
            match asMap (Some c) with
            | None => None
            | Some container =>
                match asString (container !! "image") with
                | Some image =>
                    if strings.HasSuffix image ":latest" ||
                       negb (strings.Contains image ":")
                    then Some [latestTagFinding resource]
                    else None
                | None => None
                end
            end) containers)
      end
  end.

(** *** 11. host-network *)

Definition hostNetworkFinding (resource : K8sResource) : types.Finding :=
  finding resource "host-network" types.High
    "Uses host network namespace"
    "Bypasses network policies and accesses host network"
    "Remove hostNetwork or set to false".

Definition CheckHostNetwork : Rule := λ resource,
  match GetPodSpec resource with
  | None => []
  | Some podSpec =>
      match asBool (podSpec !! "hostNetwork") with
      | Some true => [hostNetworkFinding resource]
      | _ => []
      end
  end.

(** *** 12. host-pid-ipc *)

Definition hostPIDFinding (resource : K8sResource) : types.Finding :=
  finding resource "host-pid-ipc" types.High
    "Uses host PID namespace"
    "Can inspect and kill processes on the host"
    "Remove hostPID or set to false".

Definition hostIPCFinding (resource : K8sResource) : types.Finding :=
  finding resource "host-pid-ipc" types.High
    "Uses host IPC namespace"
    "Can access shared memory and semaphores on host"
    "Remove hostIPC or set to false".

Definition CheckHostPIDIPC : Rule := λ resource,
  match GetPodSpec resource with
  | None => []
  | Some podSpec =>
      match asBool (podSpec !! "hostPID") with
      | Some true => [hostPIDFinding resource]
      | _ =>
          match asBool (podSpec !! "hostIPC") with
          | Some true => [hostIPCFinding resource]
          | _ => []
          end
      end
  end.

(** [AllRules]: the twelve rules, in evaluation order. *)
Definition AllRules : list Rule :=
  [ CheckPrivilegedContainer;
    CheckHostPath;
    CheckDockerSocket;
    CheckRunsAsRoot;
    CheckPrivilegeEscalation;
    CheckWildcardRBAC;
    CheckClusterRoleBindingDefaultSA;
    CheckPublicLoadBalancer;
    CheckNodePort;
    CheckLatestTag;
    CheckHostNetwork;
    CheckHostPIDIPC ].

End rules.

(** ** Package [scanner] *)

Module scanner.

Import types.

(** [type Scanner struct]. *)
Record Scanner : Type := mkScanner {
  rules_ : list rules.Rule;
  options : ScanOptions;
}.

Definition NewScanner (options : ScanOptions) : Scanner :=
  {| rules_ := rules.AllRules; options := options |}.

(** [filterHighOnly]: the loop appends the HIGH findings to [filtered]. *)
Definition filterHighOnly (findings : list Finding) : list Finding :=
  fold_left (λ filtered f,
    if String.eqb (Sev f) High then filtered ++ [f] else filtered)
    findings [].

(** [Scan]: the outer loop skips unsupported kinds, the inner loop appends
    each rule's findings; the HIGH filter runs unless [IncludeMedium]. *)
Definition Scan (s : Scanner) (resources : list parser.K8sResource) : ScanResult :=
  let findings :=
    fold_left (λ findings resource,
      if negb (parser.IsSupportedKind (parser.Kind resource)) then findings
      else
        fold_left (λ findings (rule : rules.Rule),
          let ruleFindings := rule resource in
          findings ++ ruleFindings) (rules_ s) findings)
      resources [] in
  let findings :=
    if negb (IncludeMedium (options s)) then filterHighOnly findings
    else findings in
  {| Findings := findings |}.

(** [findingKey]. *)
Definition findingKey (f : Finding) : string :=
  RuleID f +:+ "|" +:+ Kind f +:+ "|" +:+ Name f +:+ "|" +:+ Namespace f.

(** [Diff]: [oldFindingsSet] is a [map[string]bool]; reading it at an
    absent key gives [false]. *)
Definition Diff (s : Scanner) (oldResources newResources : list parser.K8sResource)
    : ScanResult :=
  let oldFindings := Findings (Scan s oldResources) in
  let newFindings := Findings (Scan s newResources) in
  let oldFindingsSet : gmap string bool :=
    fold_left (λ (set : gmap string bool) f,
      let key := findingKey f in
      <[key := true]> set) oldFindings ∅ in
  let diffFindings :=
    fold_left (λ diffFindings f,
      let key := findingKey f in
      if negb (default false (oldFindingsSet !! key))
      then diffFindings ++ [f]
      else diffFindings) newFindings [] in
  {| Findings := diffFindings |}.

(** The state of the loop of [GetSummary]: the two severity counters and
    the two sets (maps to [true]). *)
Record summaryState : Type := mkSummaryState {
  high : Z;
  medium : Z;
  resourceSet : gmap string bool;
  namespaceSet : gmap string bool;
}.

Definition summaryStep (st : summaryState) (f : Finding) : summaryState :=
  let high' :=
    if String.eqb (Sev f) High then int_incr (high st) else high st in
  let medium' :=
    if String.eqb (Sev f) High then medium st
    else if String.eqb (Sev f) Medium then int_incr (medium st)
    else medium st in
  let resourceKey := Kind f +:+ "/" +:+ Name f in
  let resourceSet' := <[resourceKey := true]> (resourceSet st) in
  let namespaceSet' :=
    if negb (String.eqb (Namespace f) "")
    then <[Namespace f := true]> (namespaceSet st)
    else namespaceSet st in
  {| high := high'; medium := medium';
     resourceSet := resourceSet'; namespaceSet := namespaceSet' |}.

(** [GetSummary]; [len] of a map is its number of keys. *)
Definition GetSummary (findings : list Finding) : Summary :=
  let st := fold_left summaryStep findings
              {| high := 0; medium := 0; resourceSet := ∅; namespaceSet := ∅ |} in
  {| SummaryHigh := high st;
     SummaryMedium := medium st;
     ResourcesAffected := Z.of_nat (size (resourceSet st));
     NamespacesAffected := Z.of_nat (size (namespaceSet st)) |}.

(** [GetExitCode]: the loop sets the two flags, the tail picks the code. *)
Definition GetExitCode (findings : list Finding) : ExitCode :=
  let '(hasHigh, hasMedium) :=
    fold_left (λ '(hasHigh, hasMedium) f,
      if String.eqb (Sev f) High then (true, hasMedium)
      else if String.eqb (Sev f) Medium then (hasHigh, true)
      else (hasHigh, hasMedium)) findings (false, false) in
  if hasHigh then ExitHigh
  else if hasMedium then ExitMedium
  else ExitOK.

End scanner.


(** ** Package [output]: the formatter *)

Module output.

Import types.

(** An [error] is kept as its message. *)
Definition error : Type := string.

(** An [io.Writer]: [Write] takes the state of the writer and the bytes,
    and gives the new state and the error, if any. *)
Record Writer (W : Type) : Type := mkWriter {
  Write : W → string → W * option error;
}.
Arguments Write {W} _ _ _.

(** The line feed that ends every line written. *)
Definition nl : string := String "010"%char "".

(** A [for i, x := range l] loop that threads a state: [body i x] is the
    effect of the body at index [i] on element [x]. *)
Fixpoint range_index {A St : Type} (body : nat → A → St → St) (i : nat)
    (l : list A) (s : St) : St :=
  match l with
  | [] => s
  | x :: rest => range_index body (S i) rest (body i x s)
  end.

Section formatter.
Context {W : Type} (io : Writer W).

(** The text [encoding/json] produces for the object
    [{summary, findings}] with a two-space indent, line feed included; the
    encoder belongs to Go's library and is taken as a parameter. *)
Variable encodeJSON : Summary → list Finding → string.

(** [type Formatter struct]; the writer is held by its state. *)
Record Formatter : Type := mkFormatter {
  writer : W;
  format : OutputFormat;
}.

Definition NewFormatter (writer : W) (format : OutputFormat) : Formatter :=
  {| writer := writer; format := format |}.

(** [fmt.Fprintln] and [fmt.Fprintf] format their text and hand it to the
    writer in one [Write]; every call of the formatter drops the result, so
    only the writer's new state is kept. *)
Definition Fprint (w : W) (text : string) : W := fst (Write io w text).

(** The block of one finding, as the body of the loop writes it. *)
Definition writeFinding (i : nat) (finding : Finding) (w : W) : W :=
  let w := if (0 <? i)%nat then Fprint w nl else w in
  let w := Fprint w (Sev finding +:+ " RISK" +:+ nl) in
  let w := Fprint w ("Resource: " +:+ Kind finding +:+ "/" +:+ Name finding +:+ nl) in
  let w :=
    if negb (String.eqb (Namespace finding) "")
    then Fprint w ("Namespace: " +:+ Namespace finding +:+ nl)
    else w in
  let w := Fprint w ("Rule: " +:+ RuleID finding +:+ nl) in
  let w := Fprint w ("Reason: " +:+ Reason finding +:+ nl) in
  let w := Fprint w ("Impact: " +:+ Impact finding +:+ nl) in
  Fprint w ("Fix: " +:+ Fix finding +:+ nl).

(** The summary block; [%d] prints an [int] in decimal. *)
Definition writeSummary (summary : Summary) (w : W) : W :=
  let w := Fprint w nl in
  let w := Fprint w ("SUMMARY" +:+ nl) in
  let w := Fprint w ("High risk: " +:+ pretty (SummaryHigh summary) +:+ nl) in
  let w := Fprint w ("Medium risk: " +:+ pretty (SummaryMedium summary) +:+ nl) in
  let w := Fprint w ("Resources affected: " +:+ pretty (ResourcesAffected summary) +:+ nl) in
  if (0 <? NamespacesAffected summary)%Z
  then Fprint w ("Namespaces affected: " +:+ pretty (NamespacesAffected summary) +:+ nl)
  else w.

(** [outputHuman]: the new state of the writer and the returned error. *)
Definition outputHuman (f : Formatter) (findings : list Finding)
    (summary : Summary) : W * option error :=
  if (length findings =? 0)%nat
  then (Fprint (writer f) ("No security issues found." +:+ nl), None)
  else
    let w := range_index writeFinding 0 findings (writer f) in
    let w := writeSummary summary w in
    (w, None).

(** [outputJSON]: [Encode] writes the encoded text in one [Write] and
    returns that call's error. *)
Definition outputJSON (f : Formatter) (findings : list Finding)
    (summary : Summary) : W * option error :=
  Write io (writer f) (encodeJSON summary findings).

(** [Output]: the switch on the format, with its [default] case. *)
Definition Output (f : Formatter) (findings : list Finding)
    (summary : Summary) : W * option error :=
  if String.eqb (format f) FormatJSON then outputJSON f findings summary
  else if String.eqb (format f) FormatHuman then outputHuman f findings summary
  else outputHuman f findings summary.

End formatter.

End output.

(** ** Package [main]: what follows the parsing of the arguments *)

Module main.

Import types.

(** The sub-command with its paths: [scan] has at least one path, [diff]
    reads its first two. *)
Inductive Command : Type :=
  | CmdScan (path : string) (paths : list string)
  | CmdDiff (oldPath newPath : string).

Section run.
Context {W : Type} (io : output.Writer W).
Variable encodeJSON : Summary → list Finding → string.

(** [parser.ParseFiles] reads the file system and decodes YAML; here it is
    the function from the paths to its result, an error or the resources. *)
Variable ParseFiles : list string → output.error + list parser.K8sResource.

(** [runScan]; [fmt.Errorf("...: %w", err)] prefixes the message. *)
Definition runScan (s : scanner.Scanner) (paths : list string)
    : output.error + ScanResult :=
  match ParseFiles paths with
  | inl err => inl ("failed to parse files: " +:+ err)
  | inr resources =>
      if (length resources =? 0)%nat
      then inl "no Kubernetes resources found in specified paths"
      else inr (scanner.Scan s resources)
  end.

(** [runDiff]. *)
Definition runDiff (s : scanner.Scanner) (oldPath newPath : string)
    : output.error + ScanResult :=
  match ParseFiles [oldPath] with
  | inl err => inl ("failed to parse old manifest: " +:+ err)
  | inr oldResources =>
      match ParseFiles [newPath] with
      | inl err => inl ("failed to parse new manifest: " +:+ err)
      | inr newResources => inr (scanner.Diff s oldResources newResources)
      end
  end.

(** [main] from the creation of the scanner on: the state of standard
    output and the exit code.  Messages to standard error are left out. *)
Definition run (command : Command) (jsonOutput includeMedium : bool)
    (stdout : W) : W * ExitCode :=
  let scanOptions :=
    {| IncludeMedium := includeMedium;
       OutputFormat_ := if jsonOutput then FormatJSON else FormatHuman |} in
  let s := scanner.NewScanner scanOptions in
  let result :=
    match command with
    | CmdScan path paths => runScan s (path :: paths)
    | CmdDiff oldPath newPath => runDiff s oldPath newPath
    end in
  match result with
  | inl err => (stdout, ExitError)
  | inr result =>
      let summary := scanner.GetSummary (Findings result) in
      let formatter := output.NewFormatter stdout (OutputFormat_ scanOptions) in
      match output.Output io encodeJSON formatter (Findings result) summary with
      | (stdout, Some err) => (stdout, ExitError)
      | (stdout, None) => (stdout, scanner.GetExitCode (Findings result))
      end
  end.

End run.

End main.

(** * Specification-side definitions

    The definitions of this part follow the wording of the specification;
    the properties below compare them with the embedding of the code. *)

Import types scanner.

(** ** Identity of a finding *)

(** The identity tuple [(ruleID, kind, name, namespace)]. *)
Definition identity (f : Finding) : string * string * string * string :=
  (RuleID f, Kind f, Name f, Namespace f).

(** The diff as the specification words it: the findings of the new scan
    whose identity tuple is not the identity tuple of a finding of the old
    scan. *)
Definition DiffByIdentity (s : Scanner) (old new : list parser.K8sResource)
    : list Finding :=
  filter (λ f, identity f ∉ identity <$> Findings (Scan s old))
         (Findings (Scan s new)).

(** The scan before the severity filter, as the specification words it:
    the supported resources in input order, for each the rules in list
    order, all findings concatenated. *)
Definition scanAll (rules : list rules.Rule) (resources : list parser.K8sResource)
    : list Finding :=
  filter (λ r, parser.IsSupportedKind (parser.Kind r) = true) resources
    ≫= λ resource, rules ≫= λ rule, rule resource.

(** The twelve rule identifiers. *)
Definition ruleIDs : list string :=
  [ "privileged-container"; "hostpath-volume"; "docker-socket-mount";
    "runs-as-root"; "privilege-escalation-allowed"; "wildcard-rbac";
    "clusterrolebinding-default-sa"; "public-loadbalancer";
    "nodeport-service"; "latest-image-tag"; "host-network"; "host-pid-ipc" ].

(** A finding of [resource]: its kind, name and namespace are the
    resource's and its rule identifier is one of the twelve. *)
Definition findingOf (resource : parser.K8sResource) (f : Finding) : Prop :=
  Kind f = parser.Kind resource
  ∧ Name f = parser.Name (parser.Metadata resource)
  ∧ Namespace f = parser.Namespace (parser.Metadata resource)
  ∧ RuleID f ∈ ruleIDs.

(** A string without the separator [sep]. *)
Definition sepFree (sep : ascii) (s : string) : Prop :=
  strings.Contains s (String sep "") = false.

(** None of the four identity fields contains the character "|". *)
Definition barFree (f : Finding) : Prop :=
  sepFree "|"%char (RuleID f) ∧ sepFree "|"%char (Kind f) ∧
  sepFree "|"%char (Name f) ∧ sepFree "|"%char (Namespace f).

(** ** Pod-spec location *)

(** The subtree reached from [m] through the keys of [path], each step
    landing on a mapping. *)
Fixpoint lookupPath (path : list string) (m : gmap string parser.Value)
    : option (gmap string parser.Value) :=
  match path with
  | [] => Some m
  | k :: rest =>
      match parser.asMap (m !! k) with
      | Some m' => lookupPath rest m'
      | None => None
      end
  end.

(** Pod-spec extraction as the specification words it: a dispatch on the
    kind. *)
Definition GetPodSpecByKind (resource : parser.K8sResource)
    : option (gmap string parser.Value) :=
  let kind := parser.Kind resource in
  if decide (kind = "Pod") then Some (parser.Spec resource)
  else if decide (kind ∈ ["Deployment"; "StatefulSet"; "DaemonSet"; "Job"])
  then lookupPath ["template"; "spec"] (parser.Spec resource)
  else if decide (kind = "CronJob")
  then lookupPath ["jobTemplate"; "spec"; "template"; "spec"] (parser.Spec resource)
  else None.

(** The eight rules that start from the pod spec. *)
Definition podSpecRules : list rules.Rule :=
  [ rules.CheckPrivilegedContainer; rules.CheckHostPath;
    rules.CheckDockerSocket; rules.CheckRunsAsRoot;
    rules.CheckPrivilegeEscalation; rules.CheckLatestTag;
    rules.CheckHostNetwork; rules.CheckHostPIDIPC ].

(** ** runs-as-root, as specified *)

(** A field of a security context when explicitly set. *)
Definition explicitRunAsNonRoot (sc : option (gmap string parser.Value))
    : option bool :=
  sc ≫= λ m, parser.asBool (m !! "runAsNonRoot").

Definition explicitRunAsUser (sc : option (gmap string parser.Value))
    : option Z :=
  sc ≫= λ m, parser.asInt (m !! "runAsUser").

(** The effective value of a field: the container-level value when
    explicitly set, otherwise the inherited pod-level value. *)
Definition effective {A : Type} (containerLevel podLevel : option A) : option A :=
  match containerLevel with
  | Some v => Some v
  | None => podLevel
  end.

(** Effective runAsNonRoot is false or absent, and effective runAsUser is 0
    or unset. *)
Definition containerRunsAsRoot (podSC : option (gmap string parser.Value))
    (container : gmap string parser.Value) : bool :=
  let sc := parser.asMap (container !! "securityContext") in
  let nonRoot := effective (explicitRunAsNonRoot sc) (explicitRunAsNonRoot podSC) in
  let user := effective (explicitRunAsUser sc) (explicitRunAsUser podSC) in
  match nonRoot with Some true => false | _ => true end &&
  match user with Some uid => (uid =? 0)%Z | None => true end.

(** Some container of the pod spec runs as root. *)
Definition runsAsRootSpec (podSpec : gmap string parser.Value) : bool :=
  let podSC := parser.asMap (podSpec !! "securityContext") in
  match parser.asSeq (podSpec !! "containers") with
  | Some containers =>
      existsb (λ c,
        match parser.asMap (Some c) with
        | Some container => containerRunsAsRoot podSC container
        | None => false
        end) containers
  | None => false
  end.

(** ** Violating containers *)

(** A container whose securityContext has [privileged: true]. *)
Definition privilegedContainer (c : parser.Value) : bool :=
  match parser.asMap (Some c) with
  | Some container =>
      match parser.asMap (container !! "securityContext") with
      | Some securityContext =>
          match parser.asBool (securityContext !! "privileged") with
          | Some true => true
          | _ => false
          end
      | None => false
      end
  | None => false
  end.

(** ** Summary counters, as specified *)

(** Names for two pieces of [GetSummary]: the key it records per finding
    and the state its loop starts from. *)
Definition resourceKey (f : Finding) : string := Kind f +:+ "/" +:+ Name f.

Definition summaryStart : summaryState :=
  {| high := 0; medium := 0; resourceSet := ∅; namespaceSet := ∅ |}.

Definition countSeverity (sev : Severity) (findings : list Finding) : nat :=
  length (filter (λ f, Sev f = sev) findings).

(** Number of distinct [(kind, name)] pairs. *)
Definition distinctResources (findings : list Finding) : nat :=
  length (remove_dups ((λ f, (Kind f, Name f)) <$> findings)).

(** Number of distinct non-empty namespaces. *)
Definition distinctNamespaces (findings : list Finding) : nat :=
  length (remove_dups (filter (λ ns, ns ≠ "") (Namespace <$> findings))).

(** ** Sample resources and findings *)

(** A manifest with the given kind, name, namespace and spec, and nothing
    else. [Raw] is read by no rule. *)
Definition manifest (kind name namespace : string)
    (spec : gmap string parser.Value) : parser.K8sResource :=
  {| parser.APIVersion := "v1";
     parser.Kind := kind;
     parser.Metadata :=
       {| parser.Name := name; parser.Namespace := namespace;
          parser.Labels := ∅; parser.Annotations := ∅ |};
     parser.Spec := spec;
     parser.Rules := [];
     parser.RoleRef := None;
     parser.Subjects := [];
     parser.Raw := ∅ |}.

(** A pod spec with pod-level [runAsUser: uid] and one container that has
    no securityContext. *)
Definition podLevelUidSpec (uid : Z) : gmap string parser.Value :=
  {[ "securityContext" := parser.VMap {[ "runAsUser" := parser.VInt uid ]};
     "containers" :=
       parser.VSeq [parser.VMap {[ "name" := parser.VStr "app";
                                   "image" := parser.VStr "app:1.0" ]}] ]}.

Definition podUid1000 : parser.K8sResource :=
  manifest "Pod" "web" "default" (podLevelUidSpec 1000).
Definition podUid0 : parser.K8sResource :=
  manifest "Pod" "web" "default" (podLevelUidSpec 0).

(** A Service whose spec carries a [template.spec] subtree. *)
Definition serviceWithTemplate : parser.K8sResource :=
  manifest "Service" "svc" "default"
    {[ "template" :=
         parser.VMap {[ "spec" :=
           parser.VMap {[ "hostNetwork" := parser.VBool true ]} ]} ]}.

(** A pod spec with one privileged container. *)
Definition privilegedSpec : gmap string parser.Value :=
  {[ "containers" :=
       parser.VSeq [parser.VMap {[ "securityContext" :=
         parser.VMap {[ "privileged" := parser.VBool true ]} ]}] ]}.

(** Two pods whose names and namespaces differ but concatenate alike. *)
Definition podOld : parser.K8sResource := manifest "Pod" "a|b" "c" privilegedSpec.
Definition podNew : parser.K8sResource := manifest "Pod" "a" "b|c" privilegedSpec.

(** A pod with two privileged containers, host PID and host IPC. *)
Definition podNoisy : parser.K8sResource :=
  manifest "Pod" "api" "prod"
    {[ "hostPID" := parser.VBool true;
       "hostIPC" := parser.VBool true;
       "containers" :=
         parser.VSeq
           [parser.VMap {[ "securityContext" :=
              parser.VMap {[ "privileged" := parser.VBool true ]} ]};
            parser.VMap {[ "securityContext" :=
              parser.VMap {[ "privileged" := parser.VBool true ]} ]}] ]}.

(** A Deployment and a CronJob wrapping the privileged pod spec. *)
Definition deploymentPrivileged : parser.K8sResource :=
  manifest "Deployment" "api" "prod"
    {[ "replicas" := parser.VInt 2;
       "template" := parser.VMap {[ "spec" := parser.VMap privilegedSpec ]} ]}.

Definition cronJobPrivileged : parser.K8sResource :=
  manifest "CronJob" "nightly" "prod"
    {[ "schedule" := parser.VStr "0 3 * * *";
       "jobTemplate" :=
         parser.VMap {[ "spec" :=
           parser.VMap {[ "template" :=
             parser.VMap {[ "spec" := parser.VMap privilegedSpec ]} ]} ]} ]}.


(** A Role: it has no pod spec. *)
Definition roleReader : parser.K8sResource :=
  {| parser.APIVersion := "rbac.authorization.k8s.io/v1";
     parser.Kind := "Role";
     parser.Metadata :=
       {| parser.Name := "reader"; parser.Namespace := "default";
          parser.Labels := ∅; parser.Annotations := ∅ |};
     parser.Spec := ∅;
     parser.Rules := [ {| parser.APIGroups := [""]; parser.Resources := ["pods"];
                          parser.Verbs := ["get"] |} ];
     parser.RoleRef := None;
     parser.Subjects := [];
     parser.Raw := ∅ |}.

(** The scenarios of the specification: a Pod [api] in [prod] with one
    privileged container; a Deployment with no risky field; a NodePort
    Service with and without the justification annotation; a ClusterRole
    with wildcard verbs on [resources]. *)
Definition podApi : parser.K8sResource := manifest "Pod" "api" "prod" privilegedSpec.

Definition deploymentClean : parser.K8sResource :=
  manifest "Deployment" "web" "prod"
    {[ "replicas" := parser.VInt 3;
       "template" := parser.VMap {[ "spec" := parser.VMap
         {[ "containers" := parser.VSeq [parser.VMap
              {[ "name" := parser.VStr "web";
                 "image" := parser.VStr "registry.local/web:1.4.2";
                 "securityContext" := parser.VMap
                   {[ "runAsNonRoot" := parser.VBool true;
                      "allowPrivilegeEscalation" := parser.VBool false ]} ]}] ]} ]} ]}.

Definition serviceNodePort (annotations : gmap string string) : parser.K8sResource :=
  {| parser.APIVersion := "v1";
     parser.Kind := "Service";
     parser.Metadata :=
       {| parser.Name := "edge"; parser.Namespace := "staging";
          parser.Labels := ∅; parser.Annotations := annotations |};
     parser.Spec := {[ "type" := parser.VStr "NodePort" ]};
     parser.Rules := [];
     parser.RoleRef := None;
     parser.Subjects := [];
     parser.Raw := ∅ |}.

Definition clusterRole (resources : list string) : parser.K8sResource :=
  {| parser.APIVersion := "rbac.authorization.k8s.io/v1";
     parser.Kind := "ClusterRole";
     parser.Metadata :=
       {| parser.Name := "ops"; parser.Namespace := "";
          parser.Labels := ∅; parser.Annotations := ∅ |};
     parser.Spec := ∅;
     parser.Rules := [ {| parser.APIGroups := ["*"]; parser.Resources := resources;
                          parser.Verbs := ["*"] |} ];
     parser.RoleRef := None;
     parser.Subjects := [];
     parser.Raw := ∅ |}.

(** A Pod running the given image. *)
Definition podImage (image : string) : parser.K8sResource :=
  manifest "Pod" "job" "default"
    {[ "containers" := parser.VSeq [parser.VMap {[ "image" := parser.VStr image ]}] ]}.

(** A finding with the given severity and identity fields. *)
Definition sampleFinding (sev : Severity) (kind name namespace : string) : Finding :=
  {| RuleID := "host-network"; Sev := sev; Kind := kind; Name := name;
     Namespace := namespace; Reason := "Uses host network namespace";
     Impact := "Bypasses network policies and accesses host network";
     Fix := "Remove hostNetwork or set to false" |}.

Definition defaultScanner : Scanner := NewScanner (mkScanOptions false FormatHuman).
Definition mediumScanner : Scanner := NewScanner (mkScanOptions true FormatHuman).

(** ** Further specification-side definitions *)

(** The eleven supported kinds, by name. *)
Definition supportedKinds : list string :=
  [ "Pod"; "Deployment"; "StatefulSet"; "DaemonSet"; "Job"; "CronJob";
    "Service"; "Role"; "ClusterRole"; "RoleBinding"; "ClusterRoleBinding" ].

(** The severity each rule identifier comes with. *)
Definition severityOf (ruleID : string) : Severity :=
  if decide (ruleID ∈ ["runs-as-root"; "nodeport-service"; "latest-image-tag"])
  then Medium else High.

(** Two resources that agree on everything but [APIVersion], [Labels],
    [RoleRef] and [Raw]. *)
Definition sameRuleInputs (r r' : parser.K8sResource) : Prop :=
  parser.Kind r = parser.Kind r'
  ∧ parser.Name (parser.Metadata r) = parser.Name (parser.Metadata r')
  ∧ parser.Namespace (parser.Metadata r) = parser.Namespace (parser.Metadata r')
  ∧ parser.Annotations (parser.Metadata r) = parser.Annotations (parser.Metadata r')
  ∧ parser.Spec r = parser.Spec r'
  ∧ parser.Rules r = parser.Rules r'
  ∧ parser.Subjects r = parser.Subjects r'.

(** A ConfigMap: a kind the scanner does not support. *)
Definition configMap : parser.K8sResource :=
  manifest "ConfigMap" "settings" "prod" {[ "hostNetwork" := parser.VBool true ]}.

(** [podApi] as another decoder would have left it: other [APIVersion],
    [Labels], [RoleRef] and [Raw]. *)
Definition podApiVariant : parser.K8sResource :=
  {| parser.APIVersion := "v2";
     parser.Kind := "Pod";
     parser.Metadata :=
       {| parser.Name := "api"; parser.Namespace := "prod";
          parser.Labels := {[ "app" := "api" ]}; parser.Annotations := ∅ |};
     parser.Spec := privilegedSpec;
     parser.Rules := [];
     parser.RoleRef := Some {| parser.RoleRefAPIGroup := ""; parser.RoleRefKind := "Role";
                               parser.RoleRefName := "x" |};
     parser.Subjects := [];
     parser.Raw := {[ "kind" := parser.VStr "Pod" ]} |}.

(** An RBAC rule entry with the wildcard among its verbs and among its
    resources. *)
Definition wildcardEntry (rule : parser.Rule) : Prop :=
  "*" ∈ parser.Verbs rule ∧ "*" ∈ parser.Resources rule.

(** The default service account, in whatever namespace. *)
Definition defaultServiceAccount (subject : parser.Subject) : Prop :=
  parser.SubjectKind subject = "ServiceAccount"
  ∧ parser.SubjectName subject = "default".

(** A container whose securityContext has [allowPrivilegeEscalation: true]. *)
Definition escalatingContainer (c : parser.Value) : bool :=
  match parser.asMap (Some c) with
  | Some container =>
      match parser.asMap (container !! "securityContext") with
      | Some securityContext =>
          match parser.asBool (securityContext !! "allowPrivilegeEscalation") with
          | Some true => true
          | _ => false
          end
      | None => false
      end
  | None => false
  end.

(** An image reference that ends in ":latest" or holds no colon at all. *)
Definition latestOrUntagged (image : string) : Prop :=
  (∃ repository, image = repository +:+ ":latest") ∨ sepFree ":"%char image.

(** A container whose [image] is such a string. *)
Definition floatingImage (c : parser.Value) : Prop :=
  ∃ container image,
    c = parser.VMap container
    ∧ container !! "image" = Some (parser.VStr image)
    ∧ latestOrUntagged image.

(** A volume with a [hostPath] mapping whose [path] is a string that
    contains the Docker socket path. *)
Definition dockerSocketVolume (v : parser.Value) : bool :=
  match parser.asMap (Some v) with
  | Some volume =>
      match parser.asMap (volume !! "hostPath") with
      | Some hostPath =>
          match parser.asString (hostPath !! "path") with
          | Some path => strings.Contains path "/var/run/docker.sock"
          | None => false
          end
      | None => false
      end
  | None => false
  end.

(** A container that cannot trigger runs-as-root: its effective
    [runAsNonRoot] is [true], or it has a securityContext of its own and
    its effective [runAsUser] is set to something else than 0 and -1. *)
Definition nonRootContainer (podSC : option (gmap string parser.Value))
    (c : parser.Value) : Prop :=
  ∀ container, c = parser.VMap container →
    let sc := parser.asMap (container !! "securityContext") in
    effective (explicitRunAsNonRoot sc) (explicitRunAsNonRoot podSC) = Some true
    ∨ (is_Some sc
       ∧ ∃ uid, effective (explicitRunAsUser sc) (explicitRunAsUser podSC) = Some uid
                ∧ uid ≠ 0%Z ∧ uid ≠ (-1)%Z).

(** A Pod that mounts the Docker socket. *)
Definition podDockerSocket : parser.K8sResource :=
  manifest "Pod" "ci" "build"
    {[ "volumes" := parser.VSeq [parser.VMap
         {[ "name" := parser.VStr "sock";
            "hostPath" := parser.VMap
              {[ "path" := parser.VStr "/var/run/docker.sock" ]} ]}] ]}.

(** A Pod with pod-level [runAsNonRoot: true] and two containers, one
    without securityContext and one that sets only [runAsUser]. *)
Definition podNonRoot : parser.K8sResource :=
  manifest "Pod" "safe" "prod"
    {[ "securityContext" := parser.VMap {[ "runAsNonRoot" := parser.VBool true ]};
       "containers" := parser.VSeq
         [ parser.VMap {[ "image" := parser.VStr "registry:5000/app" ]};
           parser.VMap {[ "image" := parser.VStr "app:latest";
                          "securityContext" := parser.VMap
                            {[ "runAsUser" := parser.VInt 1000 ]} ]} ] ]}.

(** The containers, the volumes and the pod-level securityContext a rule
    gets to see: those of the pod spec when they have the expected type. *)
Definition podContainers (resource : parser.K8sResource) : list parser.Value :=
  match parser.GetPodSpec resource with
  | Some podSpec => default [] (parser.asSeq (podSpec !! "containers"))
  | None => []
  end.

Definition podVolumes (resource : parser.K8sResource) : list parser.Value :=
  match parser.GetPodSpec resource with
  | Some podSpec => default [] (parser.asSeq (podSpec !! "volumes"))
  | None => []
  end.

Definition podSecurityContext (resource : parser.K8sResource)
    : option (gmap string parser.Value) :=
  parser.GetPodSpec resource ≫= λ podSpec,
    parser.asMap (podSpec !! "securityContext").

(** A writer that appends to a buffer and never fails, and a writer whose
    every [Write] fails; the latter counts the calls. *)
Definition bufferWriter : output.Writer string :=
  {| output.Write := λ buffer text, (buffer +:+ text, None) |}.

Definition brokenWriter : output.Writer nat :=
  {| output.Write := λ calls text, (S calls, Some "broken pipe") |}.

(** A JSON encoder standing for the library's, for the examples. *)
Definition sampleEncodeJSON (summary : Summary) (findings : list Finding) : string :=
  "{}" +:+ output.nl.

(** A file system for the examples: [only-configmap.yaml] holds one
    ConfigMap, [empty.yaml] holds no document, [pods.yaml] holds two pods,
    and nothing else exists. *)
Definition sampleParseFiles (paths : list string)
    : output.error + list parser.K8sResource :=
  match paths with
  | ["only-configmap.yaml"] => inr [configMap]
  | ["empty.yaml"] => inr []
  | ["pods.yaml"] => inr [podApi; podUid1000]
  | _ => inl "failed to stat: no such file or directory"
  end.

(** The human-readable report, as one text: the block of a finding, the
    summary block, and the whole. *)
Definition findingBlock (f : Finding) : string :=
  Sev f +:+ " RISK" +:+ output.nl
  +:+ "Resource: " +:+ Kind f +:+ "/" +:+ Name f +:+ output.nl
  +:+ (if decide (Namespace f = "") then ""
       else "Namespace: " +:+ Namespace f +:+ output.nl)
  +:+ "Rule: " +:+ RuleID f +:+ output.nl
  +:+ "Reason: " +:+ Reason f +:+ output.nl
  +:+ "Impact: " +:+ Impact f +:+ output.nl
  +:+ "Fix: " +:+ Fix f +:+ output.nl.

Definition summaryBlock (summary : Summary) : string :=
  output.nl +:+ "SUMMARY" +:+ output.nl
  +:+ "High risk: " +:+ pretty (SummaryHigh summary) +:+ output.nl
  +:+ "Medium risk: " +:+ pretty (SummaryMedium summary) +:+ output.nl
  +:+ "Resources affected: " +:+ pretty (ResourcesAffected summary) +:+ output.nl
  +:+ (if decide (0 < NamespacesAffected summary)%Z
       then "Namespaces affected: " +:+ pretty (NamespacesAffected summary)
            +:+ output.nl
       else "").

(** The blocks of the findings, separated by one empty line, then the
    summary block; a fixed sentence when there is no finding. *)
Definition humanText (findings : list Finding) (summary : Summary) : string :=
  match findings with
  | [] => "No security issues found." +:+ output.nl
  | _ => String.concat output.nl (findingBlock <$> findings)
         +:+ summaryBlock summary
  end.

(** * Properties *)

(** ** Loops that append: [fold_left] against [filter] *)

Section fold_loops.
Context {A : Type}.

(** A loop that appends the elements satisfying a test is a [filter]. *)
Lemma fold_left_append_filter (P : A → Prop) `{!∀ x, Decision (P x)}
    (p : A → bool) (l acc : list A) :
  (∀ x, p x = true ↔ P x) →
  fold_left (λ acc x, if p x then acc ++ [x] else acc) l acc
  = acc ++ filter P l.
Proof.
  intros Hp. revert acc.
  induction l as [|x l IH]; intros acc; simpl.
  - by rewrite app_nil_r.
  - rewrite IH. destruct (p x) eqn:E.
    + rewrite filter_cons_True by (by apply Hp).
      by rewrite <- app_assoc.
    + rewrite filter_cons_False; [done|].
      intros HP. apply Hp in HP. congruence.
Qed.

(** A loop that records a key per element builds the set of the keys. *)
Lemma fold_left_insert_lookup (key : A → string) (l : list A)
    (m : gmap string bool) (k : string) :
  fold_left (λ (set : gmap string bool) x, <[key x := true]> set) l m !! k
  = if decide (k ∈ key <$> l) then Some true else m !! k.
Proof.
  revert m. induction l as [|x l IH]; intros m.
  - cbn [fold_left]. by rewrite decide_False by apply not_elem_of_nil.
  - cbn [fold_left]. rewrite IH, fmap_cons.
    destruct (decide (k ∈ key <$> l)) as [Hin|Hin].
    + rewrite decide_True; [done|]. by apply elem_of_cons; right.
    + destruct (decide (k = key x)) as [->|Hne].
      * rewrite lookup_insert_eq. rewrite decide_True; [done|].
        by apply elem_of_cons; left.
      * rewrite lookup_insert_ne by done.
        rewrite decide_False; [done|].
        intros [?|?]%elem_of_cons; done.
Qed.

End fold_loops.

(** ** The orchestrator, loop-free *)

Lemma filterHighOnly_filter (findings : list Finding) :
  filterHighOnly findings = filter (λ f, Sev f = High) findings.
Proof.
  unfold filterHighOnly.
  rewrite (fold_left_append_filter (λ f, Sev f = High)); [done|].
  intros f. apply String.eqb_eq.
Qed.

(** The findings of [Diff] are the new findings whose key is not the key of
    an old finding. *)
Lemma Diff_filter_keys (s : Scanner) (old new : list parser.K8sResource) :
  Findings (Diff s old new)
  = filter (λ f, findingKey f ∉ findingKey <$> Findings (Scan s old))
           (Findings (Scan s new)).
Proof.
  unfold Diff; simpl.
  rewrite (fold_left_append_filter
             (λ f, findingKey f ∉ findingKey <$> Findings (Scan s old)));
    [done|].
  intros f. rewrite fold_left_insert_lookup.
  case_decide; simpl; [|rewrite lookup_empty; simpl]; split; try done.
Qed.

(** ** The scenarios of the specification, evaluated *)

Example strings_examples :
  strings.HasSuffix "nginx:latest" ":latest" = true
  ∧ strings.HasSuffix "latest" ":latest" = false
  ∧ strings.Contains "registry:5000/nginx" ":" = true
  ∧ strings.Contains "nginx" ":" = false
  ∧ strings.Contains "/host/var/run/docker.sock" "/var/run/docker.sock" = true
  ∧ strings.Contains "/var/run/docker" "/var/run/docker.sock" = false.
Proof. repeat split. Qed.

Example scenario_privileged_pod :
  let findings := Findings (Scan defaultScanner [podApi]) in
  findings = [rules.privilegedFinding podApi]
  ∧ GetSummary findings
    = {| SummaryHigh := 1; SummaryMedium := 0;
         ResourcesAffected := 1; NamespacesAffected := 1 |}
  ∧ GetExitCode findings = 2%Z.
Proof. repeat split. Qed.

Example scenario_clean_deployment :
  Findings (Scan mediumScanner [deploymentClean]) = []
  ∧ GetExitCode [] = 0%Z.
Proof. repeat split. Qed.

Example scenario_nodeport :
  rules.CheckNodePort (serviceNodePort {[ "danger-scan/nodeport-justified" := "true" ]}) = []
  ∧ rules.CheckNodePort (serviceNodePort ∅) = [rules.nodePortFinding (serviceNodePort ∅)].
Proof. repeat split. Qed.

Example scenario_wildcard_rbac :
  rules.CheckWildcardRBAC (clusterRole ["pods"]) = []
  ∧ rules.CheckWildcardRBAC (clusterRole ["*"])
    = [rules.wildcardRBACFinding (clusterRole ["*"])].
Proof. repeat split. Qed.

Example scenario_image_tags :
  rules.CheckLatestTag (podImage "nginx:latest") = [rules.latestTagFinding (podImage "nginx:latest")]
  ∧ rules.CheckLatestTag (podImage "nginx") = [rules.latestTagFinding (podImage "nginx")]
  ∧ rules.CheckLatestTag (podImage "nginx:1.25") = [].
Proof. repeat split. Qed.

(** ** Severity filter, self-diff and exit code *)

(** C4. For every scanner (whatever its rules and options) and every
    resource list [X], [Diff X X] has no finding. *)
Theorem Diff_same_empty (s : Scanner) (X : list parser.K8sResource) :
  Findings (Diff s X X) = [].
Proof.
  rewrite Diff_filter_keys.
  induction (Findings (Scan s X)) as [|f fs IH] using rev_ind; [done|].
  rewrite filter_app, fmap_app. simpl.
  rewrite filter_cons_False.
  - rewrite filter_nil, app_nil_r.
    apply elem_of_nil_inv. intros g [Hg Hin]%list_elem_of_filter.
    apply Hg, elem_of_app. left. by apply list_elem_of_fmap_2.
  - intros H. apply H, elem_of_app. right. apply list_elem_of_singleton. done.
Qed.

(** C5. On the same resources, the scan without MEDIUM findings is the scan
    with them restricted, in order, to the findings of HIGH severity. *)
Theorem Scan_high_only_is_filter (fmt fmt' : OutputFormat)
    (resources : list parser.K8sResource) :
  Findings (Scan (NewScanner (mkScanOptions false fmt)) resources)
  = filter (λ f, Sev f = High)
      (Findings (Scan (NewScanner (mkScanOptions true fmt')) resources)).
Proof.
  unfold Scan; simpl. apply filterHighOnly_filter.
Qed.

(** The two flags of [GetExitCode] after the loop. *)
Lemma GetExitCode_flags (findings : list Finding) (h m : bool) :
  fold_left (λ '(hasHigh, hasMedium) f,
      if String.eqb (Sev f) High then (true, hasMedium)
      else if String.eqb (Sev f) Medium then (hasHigh, true)
      else (hasHigh, hasMedium)) findings (h, m)
  = (h || bool_decide (Exists (λ f, Sev f = High) findings),
     m || bool_decide (Exists (λ f, Sev f = Medium) findings)).
Proof.
  revert h m. induction findings as [|f fs IH]; intros h m.
  - cbn [fold_left]. rewrite !bool_decide_eq_false_2 by (intros HE; inversion HE).
    by rewrite !orb_false_r.
  - cbn [fold_left].
    destruct (String.eqb (Sev f) High) eqn:EH.
    + apply String.eqb_eq in EH. rewrite IH. f_equal.
      * rewrite (bool_decide_eq_true_2 (Exists _ (f :: fs)))
          by (by apply Exists_cons_hd).
        by rewrite orb_true_r.
      * f_equal. apply bool_decide_ext. rewrite Exists_cons.
        split; [tauto|]. intros [HM|?]; [|done].
        rewrite EH in HM. discriminate.
    + apply String.eqb_neq in EH.
      destruct (String.eqb (Sev f) Medium) eqn:EM.
      * apply String.eqb_eq in EM. rewrite IH. f_equal.
        -- f_equal. apply bool_decide_ext. rewrite Exists_cons.
           split; [tauto|]. intros [?|?]; done.
        -- rewrite (bool_decide_eq_true_2 (Exists _ (f :: fs)))
             by (by apply Exists_cons_hd).
           by rewrite orb_true_r.
      * apply String.eqb_neq in EM. rewrite IH.
        f_equal; f_equal; apply bool_decide_ext; rewrite Exists_cons;
          (split; [tauto|]); intros [?|?]; done.
Qed.

(** C6. [GetExitCode] is 2 when some finding is HIGH, otherwise 1 when some
    finding is MEDIUM, otherwise 0; the empty list gives 0. *)
Theorem GetExitCode_spec (findings : list Finding) :
  GetExitCode findings
  = (if decide (Exists (λ f, Sev f = High) findings) then ExitHigh
     else if decide (Exists (λ f, Sev f = Medium) findings) then ExitMedium
     else ExitOK)
  ∧ ExitHigh = 2%Z ∧ ExitMedium = 1%Z ∧ ExitOK = 0%Z
  ∧ GetExitCode [] = 0%Z.
Proof.
  split; [|done].
  unfold GetExitCode. rewrite GetExitCode_flags. cbn [orb].
  repeat case_bool_decide; repeat case_decide; done.
Qed.

(** ** Keys built by joining fields with a separator *)

Section separators.
Variable sep : ascii.

Lemma join_cons (a : ascii) (s t : string) :
  String a s +:+ t = String a (s +:+ t).
Proof. reflexivity. Qed.

Lemma join_sep (t : string) : String sep "" +:+ t = String sep t.
Proof. reflexivity. Qed.

Lemma sepFree_nil : sepFree sep "".
Proof. reflexivity. Qed.

Lemma sepFree_cons (a : ascii) (s : string) :
  sepFree sep (String a s) ↔ a ≠ sep ∧ sepFree sep s.
Proof.
  unfold sepFree. cbn [strings.Contains strings.HasPrefix String.prefix].
  destruct (ascii_dec sep a) as [->|Hne].
  - destruct s; cbn; split; try discriminate; intros [? _]; done.
  - cbn [orb]. split; [intros H; split; [congruence|done]|by intros [_ ?]].
Qed.

(** A separator-free field followed by the separator can be read back:
    the first separator of the joined string ends the field. *)
Lemma join_inj (a a' b b' : string) :
  sepFree sep a → sepFree sep a' →
  a +:+ String sep b = a' +:+ String sep b' →
  a = a' ∧ b = b'.
Proof.
  revert a'. induction a as [|x a IH]; intros [|x' a'] Ha Ha' E.
  - change (String sep b = String sep b') in E. by simplify_eq.
  - rewrite join_cons in E. change ("" +:+ String sep b) with (String sep b) in E.
    apply sepFree_cons in Ha' as [Hx' _]. by simplify_eq.
  - rewrite join_cons in E. change ("" +:+ String sep b') with (String sep b') in E.
    apply sepFree_cons in Ha as [Hx _]. by simplify_eq.
  - rewrite !join_cons in E.
    apply sepFree_cons in Ha as [_ Ha]. apply sepFree_cons in Ha' as [_ Ha'].
    injection E as -> E. destruct (IH a' Ha Ha' E) as [-> ->]. done.
Qed.
End separators.

(** On findings whose first three identity fields are free of "|", equal
    keys mean equal identity tuples. *)
Lemma findingKey_inj (f g : Finding) :
  sepFree "|"%char (RuleID f) → sepFree "|"%char (Kind f) → sepFree "|"%char (Name f) →
  sepFree "|"%char (RuleID g) → sepFree "|"%char (Kind g) → sepFree "|"%char (Name g) →
  findingKey f = findingKey g → identity f = identity g.
Proof.
  intros Hr Hk Hn Hr' Hk' Hn'. unfold findingKey, identity.
  rewrite !(join_sep "|"%char). intros E.
  apply join_inj in E as [-> E]; [|done..].
  apply join_inj in E as [-> E]; [|done..].
  apply join_inj in E as [-> ->]; [|done..].
  done.
Qed.

Lemma identity_findingKey (f g : Finding) :
  identity f = identity g → findingKey f = findingKey g.
Proof. unfold identity, findingKey. intros [= -> -> -> ->]. done. Qed.

(** C10. The key of a finding is its four identity fields joined by "|".
    The encoding is not injective: the findings of [podOld] (name "a|b",
    namespace "c") and of [podNew] (name "a", namespace "b|c") differ in
    identity and share their key, and [Diff] drops the finding of [podNew]
    against [podOld].  On findings whose four identity fields contain no
    "|", keys are equal exactly when identity tuples are. *)
Theorem findingKey_collisions :
  (∀ f, findingKey f
        = RuleID f +:+ "|" +:+ Kind f +:+ "|" +:+ Name f +:+ "|" +:+ Namespace f)
  ∧ (let f := rules.privilegedFinding podOld in
     let g := rules.privilegedFinding podNew in
     Name f = "a|b" ∧ Namespace f = "c" ∧ Name g = "a" ∧ Namespace g = "b|c" ∧
     identity f ≠ identity g ∧ findingKey f = findingKey g ∧
     Findings (Scan defaultScanner [podOld]) = [f] ∧
     Findings (Scan defaultScanner [podNew]) = [g] ∧
     Findings (Diff defaultScanner [podOld] [podNew]) = [])
  ∧ (∀ f g, barFree f → barFree g →
            (findingKey f = findingKey g ↔ identity f = identity g)).
Proof.
  split; [done|]. split.
  - cbv zeta. repeat split; try done; vm_compute; done.
  - intros f g (Hr & Hk & Hn & _) (Hr' & Hk' & Hn' & _). split.
    + by apply findingKey_inj.
    + apply identity_findingKey.
Qed.

(** Witness for C10: two findings free of "|" with different names have
    different keys. *)
Lemma findingKey_collisions_witness :
  findingKey (sampleFinding High "Pod" "api" "prod")
  = findingKey (sampleFinding High "Pod" "web" "prod")
  ↔ identity (sampleFinding High "Pod" "api" "prod")
    = identity (sampleFinding High "Pod" "web" "prod").
Proof.
  apply (proj2 (proj2 findingKey_collisions)); repeat split; reflexivity.
Defined.

(** C3, at two pods whose names and namespaces concatenate alike: the
    finding of the new pod has an identity tuple no old finding has, so it
    belongs to the diff by identity, but [Diff] returns nothing. *)
Theorem Diff_drops_new_identity :
  Findings (Scan defaultScanner [podOld]) = [rules.privilegedFinding podOld]
  ∧ Findings (Scan defaultScanner [podNew]) = [rules.privilegedFinding podNew]
  ∧ identity (rules.privilegedFinding podNew)
    ≠ identity (rules.privilegedFinding podOld)
  ∧ DiffByIdentity defaultScanner [podOld] [podNew] = [rules.privilegedFinding podNew]
  ∧ Findings (Diff defaultScanner [podOld] [podNew]) = [].
Proof.
  repeat split; try done; vm_compute; done.
Qed.

(** ** Rule 4, runs-as-root *)

(** With a container-level securityContext the loop body follows the
    effective fields, as long as no explicit [runAsUser] is the value -1
    that the code keeps for "unset". *)
Lemma runsAsRootBody_with_securityContext (resource : parser.K8sResource)
    (podSpec container sc : gmap string parser.Value) :
  parser.asMap (container !! "securityContext") = Some sc →
  explicitRunAsUser (Some sc) ≠ Some (-1)%Z →
  explicitRunAsUser (parser.asMap (podSpec !! "securityContext")) ≠ Some (-1)%Z →
  rules.runsAsRootBody resource (rules.podRunAsNonRoot podSpec)
    (rules.podRunAsUser podSpec) (parser.VMap container)
  = if containerRunsAsRoot (parser.asMap (podSpec !! "securityContext")) container
    then Some [rules.runsAsRootFinding resource] else None.
Proof.
  intros Hsc Hc Hp.
  unfold rules.runsAsRootBody, containerRunsAsRoot, rules.podRunAsNonRoot,
    rules.podRunAsUser. cbn [parser.asMap]. rewrite Hsc.
  unfold explicitRunAsNonRoot, explicitRunAsUser, effective in *. cbn [mbind option_bind] in *.
  destruct (parser.asBool (sc !! "runAsNonRoot")) as [[]|];
    destruct (parser.asInt (sc !! "runAsUser")) as [u|];
    destruct (parser.asMap (podSpec !! "securityContext")) as [psc|];
    cbn [mbind option_bind negb andb orb] in *;
    try destruct (parser.asBool (psc !! "runAsNonRoot")) as [[]|];
    try destruct (parser.asInt (psc !! "runAsUser")) as [pu|];
    cbn [negb andb orb]; try done;
    repeat match goal with
    | |- context [(?x =? ?y)%Z] => destruct (Z.eqb_spec x y)
    end; cbn [negb andb orb]; try done; congruence.
Qed.

(** Without a container-level securityContext the loop body reports a
    finding exactly when the pod-level [runAsNonRoot] is not [true] and the
    pod-level [runAsUser] is anything but 0. *)
Lemma runsAsRootBody_without_securityContext (resource : parser.K8sResource)
    (nonRoot : bool) (uid : Z) (container : gmap string parser.Value) :
  parser.asMap (container !! "securityContext") = None →
  rules.runsAsRootBody resource nonRoot uid (parser.VMap container)
  = if negb nonRoot && negb (uid =? 0)%Z
    then Some [rules.runsAsRootFinding resource] else None.
Proof. intros H. unfold rules.runsAsRootBody. cbn [parser.asMap]. by rewrite H. Qed.

(** C1, at a pod whose only container has no securityContext.  Under a
    pod-level [runAsUser: 1000] no container runs as root, yet the rule
    reports a finding; under a pod-level [runAsUser: 0] the container runs
    as root, yet the rule reports nothing. *)
Theorem CheckRunsAsRoot_pod_level_uid_inverted :
  (parser.GetPodSpec podUid1000 = Some (podLevelUidSpec 1000)
   ∧ runsAsRootSpec (podLevelUidSpec 1000) = false
   ∧ rules.CheckRunsAsRoot podUid1000 = [rules.runsAsRootFinding podUid1000])
  ∧ (parser.GetPodSpec podUid0 = Some (podLevelUidSpec 0)
     ∧ runsAsRootSpec (podLevelUidSpec 0) = true
     ∧ rules.CheckRunsAsRoot podUid0 = []).
Proof. repeat split; vm_compute; reflexivity. Qed.

(** ** Pod-spec extraction *)

(** Counterexample to C2 as stated: a Service that carries a
    [template.spec] subtree.  By kind it has no pod spec; the code extracts
    one, and the host-network rule and the scan report a finding on it. *)
Lemma GetPodSpec_not_by_kind :
  parser.Kind serviceWithTemplate = "Service"
  ∧ GetPodSpecByKind serviceWithTemplate = None
  ∧ parser.GetPodSpec serviceWithTemplate
    = Some {[ "hostNetwork" := parser.VBool true ]}
  ∧ rules.CheckHostNetwork serviceWithTemplate
    = [rules.hostNetworkFinding serviceWithTemplate]
  ∧ Findings (Scan defaultScanner [serviceWithTemplate])
    = [rules.hostNetworkFinding serviceWithTemplate].
Proof. repeat split; vm_compute; reflexivity. Qed.

(** Without a pod spec, every rule that starts from the pod spec returns no
    finding. *)
Lemma podSpecRules_no_pod_spec (resource : parser.K8sResource) :
  parser.GetPodSpec resource = None →
  Forall (λ rule : rules.Rule, rule resource = []) podSpecRules.
Proof.
  intros H. unfold podSpecRules.
  repeat first [apply Forall_nil_2 | apply Forall_cons_2];
    unfold rules.CheckPrivilegedContainer, rules.CheckHostPath,
      rules.CheckDockerSocket, rules.CheckRunsAsRoot,
      rules.CheckPrivilegeEscalation, rules.CheckLatestTag,
      rules.CheckHostNetwork, rules.CheckHostPIDIPC;
    by rewrite H.
Qed.

(** C2, amended.  Only the kind Pod is dispatched on: its spec root is the
    pod spec.  For every other kind the extraction is structural: the
    subtree at [template.spec] when that path resolves, otherwise the
    subtree at [jobTemplate.spec.template.spec] when that one resolves,
    otherwise no pod spec; and without a pod spec the pod-spec rules return
    no finding. *)
Theorem GetPodSpec_structural (resource : parser.K8sResource) :
  (parser.Kind resource = "Pod" →
     parser.GetPodSpec resource = Some (parser.Spec resource))
  ∧ (parser.Kind resource ≠ "Pod" →
     parser.GetPodSpec resource
     = match lookupPath ["template"; "spec"] (parser.Spec resource) with
       | Some podSpec => Some podSpec
       | None =>
           lookupPath ["jobTemplate"; "spec"; "template"; "spec"]
             (parser.Spec resource)
       end)
  ∧ (parser.GetPodSpec resource = None →
     Forall (λ rule : rules.Rule, rule resource = []) podSpecRules).
Proof.
  split; [|split].
  - intros H. unfold parser.GetPodSpec. by rewrite H.
  - intros H. apply String.eqb_neq in H.
    unfold parser.GetPodSpec. rewrite H. cbn [lookupPath].
    repeat case_match; simplify_eq; done.
  - apply podSpecRules_no_pod_spec.
Qed.

(** Witness for C2: a Pod, a Deployment, a CronJob and a Role. *)
Lemma GetPodSpec_structural_witness :
  parser.GetPodSpec podOld = Some privilegedSpec
  ∧ parser.GetPodSpec deploymentPrivileged = Some privilegedSpec
  ∧ parser.GetPodSpec cronJobPrivileged = Some privilegedSpec
  ∧ Forall (λ rule : rules.Rule, rule roleReader = []) podSpecRules.
Proof.
  split; [|split; [|split]].
  - apply (proj1 (GetPodSpec_structural podOld)). reflexivity.
  - rewrite (proj1 (proj2 (GetPodSpec_structural deploymentPrivileged)));
      [reflexivity|discriminate].
  - rewrite (proj1 (proj2 (GetPodSpec_structural cronJobPrivileged)));
      [reflexivity|discriminate].
  - apply (proj2 (proj2 (GetPodSpec_structural roleReader))). reflexivity.
Defined.

(** ** One finding per rule and resource *)

Section range_return_facts.
Context {A R : Type} (body : A → option R).

(** The loop returns at the first element whose body returns: what
    follows that element is never looked at. *)
Lemma range_return_first (pre post : list A) (x : A) (r : R) :
  Forall (λ y, body y = None) pre → body x = Some r →
  range_return body (pre ++ x :: post) = Some r.
Proof.
  intros Hpre Hx. induction Hpre as [|y pre Hy _ IH]; simpl.
  - by rewrite Hx.
  - by rewrite Hy.
Qed.

(** What the loop returns was returned by the body at some element. *)
Lemma range_return_Some (l : list A) (r : R) :
  range_return body l = Some r → ∃ x, x ∈ l ∧ body x = Some r.
Proof.
  induction l as [|x l IH]; simpl; [done|].
  destruct (body x) as [r'|] eqn:E.
  - intros [= ->]. exists x. split; [left|done].
  - intros (y & Hy & Hr)%IH. exists y. split; [by right|done].
Qed.

Lemma range_return_None (l : list A) :
  range_return body l = None ↔ Forall (λ x, body x = None) l.
Proof.
  induction l as [|x l IH]; simpl.
  - split; [constructor|done].
  - destruct (body x) eqn:E.
    + split; [done|]. intros H. inversion H; congruence.
    + rewrite IH. split; [by constructor|]. intros H. by inversion H.
Qed.
End range_return_facts.

Lemma range_return_at_most_one {A : Type} (body : A → option (list Finding))
    (l : list A) :
  (∀ x r, body x = Some r → length r ≤ 1) →
  length (rules.or_nil (range_return body l)) ≤ 1.
Proof.
  intros Hbody. destruct (range_return body l) as [r|] eqn:E; simpl; [|lia].
  apply range_return_Some in E as (x & _ & Hx). by eapply Hbody.
Qed.

(** Closes the goal [length (rule resource) ≤ 1] of one rule. *)
Local Ltac at_most_one :=
  repeat case_match; simpl; try lia;
  try (apply range_return_at_most_one; intros; repeat case_match;
       simplify_eq; simpl; lia).

Lemma AllRules_at_most_one (resource : parser.K8sResource) :
  Forall (λ rule : rules.Rule, length (rule resource) ≤ 1) rules.AllRules.
Proof.
  unfold rules.AllRules.
  repeat first [apply Forall_nil_2 | apply Forall_cons_2].
  - unfold rules.CheckPrivilegedContainer. at_most_one.
  - unfold rules.CheckHostPath. at_most_one.
  - unfold rules.CheckDockerSocket. at_most_one.
  - unfold rules.CheckRunsAsRoot, rules.runsAsRootBody. at_most_one.
  - unfold rules.CheckPrivilegeEscalation. at_most_one.
  - unfold rules.CheckWildcardRBAC. at_most_one.
  - unfold rules.CheckClusterRoleBindingDefaultSA. at_most_one.
  - unfold rules.CheckPublicLoadBalancer. at_most_one.
  - unfold rules.CheckNodePort. at_most_one.
  - unfold rules.CheckLatestTag. at_most_one.
  - unfold rules.CheckHostNetwork. at_most_one.
  - unfold rules.CheckHostPIDIPC. at_most_one.
Qed.

(** C8. Each of the twelve rules returns at most one finding on a
    resource.  A loop returns at its first match, so that the privileged
    rule reports exactly one finding however many containers are
    privileged; and with hostPID true, rule 12 reports the host-PID finding
    alone, whatever hostIPC is. *)
Theorem rules_one_finding_first_match :
  (∀ resource,
     Forall (λ rule : rules.Rule, length (rule resource) ≤ 1) rules.AllRules)
  ∧ (∀ (A R : Type) (body : A → option R) pre x post r,
       Forall (λ y, body y = None) pre → body x = Some r →
       range_return body (pre ++ x :: post) = Some r)
  ∧ (∀ resource podSpec containers,
       parser.GetPodSpec resource = Some podSpec →
       parser.asSeq (podSpec !! "containers") = Some containers →
       Exists (λ c, privilegedContainer c = true) containers →
       rules.CheckPrivilegedContainer resource = [rules.privilegedFinding resource])
  ∧ (∀ resource podSpec,
       parser.GetPodSpec resource = Some podSpec →
       parser.asBool (podSpec !! "hostPID") = Some true →
       rules.CheckHostPIDIPC resource = [rules.hostPIDFinding resource]).
Proof.
  split; [apply AllRules_at_most_one|]. split; [|split].
  - intros. by apply range_return_first.
  - intros resource podSpec containers Hps Hcs Hex.
    unfold rules.CheckPrivilegedContainer. rewrite Hps, Hcs.
    apply Exists_exists in Hex as (c & Hin & Hc).
    match goal with |- rules.or_nil ?x = _ => destruct x as [r|] eqn:E end.
    + apply range_return_Some in E as (x & _ & Hx).
      repeat case_match; simplify_eq; done.
    + apply range_return_None in E.
      apply (proj1 (Forall_forall _ _) E) in Hin.
      unfold privilegedContainer in Hc.
      repeat case_match; simplify_eq.
  - intros resource podSpec Hps Hpid.
    unfold rules.CheckHostPIDIPC. by rewrite Hps, Hpid.
Qed.

(** Witness for C8: a pod with two privileged containers, hostPID and
    hostIPC. *)
Lemma rules_one_finding_first_match_witness :
  rules.CheckPrivilegedContainer podNoisy = [rules.privilegedFinding podNoisy]
  ∧ rules.CheckHostPIDIPC podNoisy = [rules.hostPIDFinding podNoisy]
  ∧ parser.asBool (parser.Spec podNoisy !! "hostIPC") = Some true.
Proof.
  destruct rules_one_finding_first_match as (_ & _ & Hpriv & Hpid).
  split; [|split].
  - eapply Hpriv; [reflexivity|reflexivity|].
    apply Exists_cons_hd. reflexivity.
  - eapply Hpid; reflexivity.
  - reflexivity.
Defined.

(** ** Rules never fail *)




(** ** Summary counters *)

(** [x++] does not wrap below the largest [int]. *)
Lemma int_incr_no_wrap (x : Z) :
  (0 ≤ x)%Z → (x < int_max)%Z → int_incr x = (x + 1)%Z.
Proof.
  unfold int_incr, int_wrap, int_max. intros H0 H1.
  rewrite Z.mod_small by lia. lia.
Qed.

(** Counting distinct values through two projections that identify the same
    elements gives the same number. *)
Lemma distinct_count_agree {A B C : Type} `{EqDecision B, EqDecision C}
    (f : A → B) (g : A → C) (l : list A) :
  (∀ x y, x ∈ l → y ∈ l → (f x = f y ↔ g x = g y)) →
  length (remove_dups (f <$> l)) = length (remove_dups (g <$> l)).
Proof.
  induction l as [|x l IH]; intros Hfg; [done|].
  assert (length (remove_dups (f <$> l)) = length (remove_dups (g <$> l))) as IH'.
  { apply IH. intros y z Hy Hz. apply Hfg; by right. }
  rewrite !fmap_cons. cbn [remove_dups].
  assert (f x ∈ f <$> l ↔ g x ∈ g <$> l) as Hin.
  { rewrite !list_elem_of_fmap. split; intros (y & E & Hy); exists y;
      (split; [|done]); apply (Hfg x y); (by left) || (by right) || done. }
  destruct (decide_rel elem_of (f x) (f <$> l)) as [H1|H1];
    destruct (decide_rel elem_of (g x) (g <$> l)) as [H2|H2];
    simpl; rewrite ?IH'; try done; tauto.
Qed.

(** The number of keys of a set built from a list of keys. *)
Lemma size_set_of_keys (keys : list string) (m : gmap string bool) :
  dom m = list_to_set keys → size m = length (remove_dups keys).
Proof.
  intros Hdom. rewrite <- size_dom, Hdom.
  rewrite <- (size_list_to_set (C := gset string) (remove_dups keys))
    by apply NoDup_remove_dups.
  f_equal. apply set_eq. intros k.
  by rewrite !elem_of_list_to_set, elem_of_remove_dups.
Qed.

(** The two sets after the loop of [GetSummary]. *)
Lemma summary_sets (findings : list Finding) (st : summaryState) :
  dom (resourceSet (fold_left summaryStep findings st))
  = list_to_set (resourceKey <$> findings) ∪ dom (resourceSet st)
  ∧ dom (namespaceSet (fold_left summaryStep findings st))
    = list_to_set (filter (λ ns, ns ≠ "") (Namespace <$> findings))
      ∪ dom (namespaceSet st).
Proof.
  revert st. induction findings as [|f fs IH]; intros st.
  - cbn [fold_left fmap list_fmap]. rewrite filter_nil. set_solver.
  - cbn [fold_left]. destruct (IH (summaryStep st f)) as [-> ->].
    rewrite !fmap_cons. unfold summaryStep; cbn [resourceSet namespaceSet].
    split.
    + rewrite dom_insert_L. fold (resourceKey f). set_solver.
    + destruct (String.eqb_spec (Namespace f) "") as [E|E]; cbn [negb].
      * rewrite filter_cons_False by (intros H; by apply H). done.
      * rewrite filter_cons_True by done. rewrite dom_insert_L. set_solver.
  Qed.

(** The two counters after the loop, as long as they do not wrap. *)
Lemma summary_counters (findings : list Finding) (st : summaryState) :
  (0 ≤ high st)%Z → (0 ≤ medium st)%Z →
  (high st + Z.of_nat (length findings) ≤ int_max)%Z →
  (medium st + Z.of_nat (length findings) ≤ int_max)%Z →
  high (fold_left summaryStep findings st)
  = (high st + Z.of_nat (countSeverity High findings))%Z
  ∧ medium (fold_left summaryStep findings st)
    = (medium st + Z.of_nat (countSeverity Medium findings))%Z.
Proof.
  unfold countSeverity.
  revert st. induction findings as [|f fs IH]; intros st Hh Hm Hhb Hmb.
  - cbn. split; lia.
  - cbn [fold_left]. cbn [length] in Hhb, Hmb.
    assert (high (summaryStep st f)
            = (high st + if decide (Sev f = High) then 1 else 0)%Z
            ∧ medium (summaryStep st f)
              = (medium st + if decide (Sev f = Medium) then 1 else 0)%Z)
      as [Eh Em].
    { unfold summaryStep; cbn [high medium].
      destruct (String.eqb_spec (Sev f) High) as [E|E].
      - rewrite decide_True by done.
        rewrite decide_False by (rewrite E; discriminate).
        rewrite int_incr_no_wrap by lia. split; lia.
      - rewrite decide_False by done.
        destruct (String.eqb_spec (Sev f) Medium) as [E'|E'].
        + rewrite decide_True by done.
          rewrite int_incr_no_wrap by lia. split; lia.
        + rewrite decide_False by done. split; lia. }
    destruct (IH (summaryStep st f)) as [-> ->];
      try (rewrite ?Eh, ?Em; repeat case_decide; lia).
    rewrite Eh, Em. rewrite !filter_cons.
    repeat case_decide; cbn [length]; split; lia.
Qed.


(** The number of resource keys is the number of distinct [(kind, name)]
    pairs when no kind contains "/". *)
Lemma summary_resources (findings : list Finding) :
  Forall (λ f, sepFree "/"%char (Kind f)) findings →
  size (resourceSet (fold_left summaryStep findings summaryStart))
  = distinctResources findings.
Proof.
  intros Hkinds. destruct (summary_sets findings summaryStart) as [Hr _].
  unfold distinctResources.
  rewrite (size_set_of_keys (resourceKey <$> findings)) by set_solver.
  apply distinct_count_agree. intros f g Hf Hg.
  rewrite Forall_forall in Hkinds. split.
  - unfold resourceKey. rewrite !(join_sep "/"%char). intros E.
    apply join_inj in E as [-> ->]; auto.
  - intros [= E1 E2]. unfold resourceKey. by rewrite E1, E2.
Qed.

Lemma summary_namespaces (findings : list Finding) :
  size (namespaceSet (fold_left summaryStep findings summaryStart))
  = distinctNamespaces findings.
Proof.
  destruct (summary_sets findings summaryStart) as [_ Hn].
  unfold distinctNamespaces. apply size_set_of_keys. set_solver.
Qed.



(** ** Where the findings of a scan come from *)

Lemma Scan_scanAll (s : Scanner) (resources : list parser.K8sResource) :
  Findings (Scan s resources)
  = if IncludeMedium (options s) then scanAll (rules_ s) resources
    else filter (λ f, Sev f = High) (scanAll (rules_ s) resources).
Proof.
  assert (∀ (resource : parser.K8sResource) (rs : list rules.Rule) acc,
            fold_left (λ findings (rule : rules.Rule), findings ++ rule resource) rs acc
            = acc ++ (rs ≫= λ rule, rule resource)) as Hinner.
  { intros resource rs. induction rs as [|rule rs IH]; intros acc; cbn [fold_left].
    - by rewrite app_nil_r.
    - rewrite IH, bind_cons. by rewrite app_assoc. }
  assert (∀ acc,
            fold_left (λ findings resource,
              if negb (parser.IsSupportedKind (parser.Kind resource)) then findings
              else fold_left (λ findings (rule : rules.Rule),
                     findings ++ rule resource) (rules_ s) findings)
              resources acc
            = acc ++ scanAll (rules_ s) resources) as Houter.
  { unfold scanAll. induction resources as [|r rs IH]; intros acc; cbn [fold_left].
    - by rewrite app_nil_r.
    - rewrite IH. destruct (parser.IsSupportedKind (parser.Kind r)) eqn:E; cbn [negb].
      + rewrite filter_cons_True by done.
        rewrite bind_cons, Hinner. by rewrite app_assoc.
      + rewrite filter_cons_False by (rewrite E; discriminate). done. }
  unfold Scan. cbn [Findings]. rewrite Houter, app_nil_l.
  destruct (IncludeMedium (options s)); cbn [negb]; [done|].
  apply filterHighOnly_filter.
Qed.

Lemma or_nil_range_return_elem {A : Type} (body : A → option (list Finding))
    (l : list A) (f : Finding) :
  f ∈ rules.or_nil (range_return body l) →
  ∃ x r, x ∈ l ∧ body x = Some r ∧ f ∈ r.
Proof.
  destruct (range_return body l) as [r|] eqn:E; simpl.
  - apply range_return_Some in E as (x & Hx & Hb). by exists x, r.
  - by intros ?%elem_of_nil.
Qed.

Lemma finding_findingOf (resource : parser.K8sResource)
    (ruleID : string) (sev : Severity) (reason impact fix_ : string) :
  ruleID ∈ ruleIDs →
  findingOf resource (rules.finding resource ruleID sev reason impact fix_).
Proof. intros H. by repeat split. Qed.

(** Closes [f ∈ rule resource → findingOf resource f] for one rule. *)
Local Ltac finding_of_resource :=
  intros f Hf; repeat case_match;
  try (by apply elem_of_nil in Hf);
  try (apply or_nil_range_return_elem in Hf as (? & ? & _ & ? & Hf);
       repeat case_match; simplify_eq);
  apply list_elem_of_singleton in Hf as ->;
  apply finding_findingOf; unfold ruleIDs;
  rewrite list_elem_of_In; simpl; tauto.

Lemma AllRules_findingOf (resource : parser.K8sResource) :
  Forall (λ rule : rules.Rule, ∀ f, f ∈ rule resource → findingOf resource f)
    rules.AllRules.
Proof.
  unfold rules.AllRules.
  repeat first [apply Forall_nil_2 | apply Forall_cons_2].
  - unfold rules.CheckPrivilegedContainer. finding_of_resource.
  - unfold rules.CheckHostPath. finding_of_resource.
  - unfold rules.CheckDockerSocket. finding_of_resource.
  - unfold rules.CheckRunsAsRoot, rules.runsAsRootBody. finding_of_resource.
  - unfold rules.CheckPrivilegeEscalation. finding_of_resource.
  - unfold rules.CheckWildcardRBAC. finding_of_resource.
  - unfold rules.CheckClusterRoleBindingDefaultSA. finding_of_resource.
  - unfold rules.CheckPublicLoadBalancer. finding_of_resource.
  - unfold rules.CheckNodePort. finding_of_resource.
  - unfold rules.CheckLatestTag. finding_of_resource.
  - unfold rules.CheckHostNetwork. finding_of_resource.
  - unfold rules.CheckHostPIDIPC. finding_of_resource.
Qed.

(** Every finding of a scan with the twelve rules is a finding of some
    input resource of a supported kind. *)
Lemma Scan_findingOf (o : ScanOptions) (resources : list parser.K8sResource)
    (f : Finding) :
  f ∈ Findings (Scan (NewScanner o) resources) →
  ∃ resource, resource ∈ resources
    ∧ parser.IsSupportedKind (parser.Kind resource) = true
    ∧ findingOf resource f.
Proof.
  rewrite Scan_scanAll. cbn [NewScanner rules_ options].
  intros Hf.
  assert (f ∈ scanAll rules.AllRules resources) as Hin.
  { destruct (IncludeMedium o); [done|]. by apply list_elem_of_filter in Hf as [_ ?]. }
  unfold scanAll in Hin.
  apply list_elem_of_bind in Hin as (r & Hin & [Hsup Hr]%list_elem_of_filter).
  apply list_elem_of_bind in Hin as (rule & Hin & Hrule).
  exists r. split; [done|]. split; [done|].
  pose proof (AllRules_findingOf r) as Hall.
  rewrite Forall_forall in Hall. by apply (Hall rule).
Qed.

(** No supported kind and no rule identifier contains "|" or "/". *)
Lemma IsSupportedKind_sepFree (kind : string) :
  parser.IsSupportedKind kind = true →
  sepFree "|"%char kind ∧ sepFree "/"%char kind.
Proof.
  unfold parser.IsSupportedKind.
  destruct (parser.supported !! kind) as [b|] eqn:E; [|done].
  intros _. apply elem_of_list_to_map_2 in E.
  repeat (apply elem_of_cons in E as [[= -> ->]|E]; [by split|]).
  by apply elem_of_nil in E.
Qed.

Lemma ruleIDs_sepFree (ruleID : string) :
  ruleID ∈ ruleIDs → sepFree "|"%char ruleID.
Proof.
  unfold ruleIDs. intros E.
  repeat (apply elem_of_cons in E as [->|E]; [done|]).
  by apply elem_of_nil in E.
Qed.

(** As long as no resource name contains "|", [Diff] is the diff by
    identity tuple. *)
Lemma Diff_by_identity (o : ScanOptions) (old new : list parser.K8sResource) :
  Forall (λ r, sepFree "|"%char (parser.Name (parser.Metadata r))) (old ++ new) →
  Findings (Diff (NewScanner o) old new) = DiffByIdentity (NewScanner o) old new.
Proof.
  intros Hnames. rewrite Forall_forall in Hnames.
  assert (∀ rs f, rs ⊆ old ++ new → f ∈ Findings (Scan (NewScanner o) rs) →
            sepFree "|"%char (RuleID f) ∧ sepFree "|"%char (Kind f)
            ∧ sepFree "|"%char (Name f)) as Hfree.
  { intros rs f Hrs (r & Hr & Hsup & Hk & Hn & _ & Hid)%Scan_findingOf.
    rewrite Hk, Hn. repeat split.
    - by apply ruleIDs_sepFree.
    - by apply IsSupportedKind_sepFree.
    - by apply Hnames, Hrs. }
  rewrite Diff_filter_keys. unfold DiffByIdentity.
  assert (∀ fs, fs ⊆ Findings (Scan (NewScanner o) new) →
     filter (λ f, findingKey f ∉ findingKey <$> Findings (Scan (NewScanner o) old)) fs
     = filter (λ f, identity f ∉ identity <$> Findings (Scan (NewScanner o) old)) fs)
    as Hfilter; [|by apply Hfilter].
  induction fs as [|f fs IH]; intros Hsub; [done|].
  assert (findingKey f ∈ findingKey <$> Findings (Scan (NewScanner o) old)
          ↔ identity f ∈ identity <$> Findings (Scan (NewScanner o) old)) as Hiff.
  { destruct (Hfree new f) as (? & ? & ?);
      [intros ??; apply elem_of_app; by right|apply Hsub; by left|].
    rewrite !list_elem_of_fmap. split; intros (g & E & Hg); exists g; (split; [|done]).
    - destruct (Hfree old g) as (? & ? & ?);
        [intros ??; apply elem_of_app; by left|done|].
      by apply findingKey_inj.
    - by apply identity_findingKey. }
  rewrite !filter_cons, IH by (intros ??; apply Hsub; by right).
  repeat case_decide; tauto || done.
Qed.

(** The findings of a scan or of a diff with the twelve rules carry
    supported kinds, so [GetSummary] counts them as specified. *)
Lemma GetSummary_of_Scan (o : ScanOptions) (resources : list parser.K8sResource)
    (findings : list Finding) :
  findings ⊆ Findings (Scan (NewScanner o) resources) →
  (Z.of_nat (length findings) ≤ int_max)%Z →
  GetSummary findings
  = {| SummaryHigh := Z.of_nat (countSeverity High findings);
       SummaryMedium := Z.of_nat (countSeverity Medium findings);
       ResourcesAffected := Z.of_nat (distinctResources findings);
       NamespacesAffected := Z.of_nat (distinctNamespaces findings) |}.
Proof.
  intros Hsub Hlen. unfold GetSummary. fold summaryStart.
  destruct (summary_counters findings summaryStart) as [Hh Hm];
    try (cbn; lia).
  rewrite Hh, Hm, summary_namespaces. cbn [summaryStart high medium].
  rewrite summary_resources; [f_equal; lia|].
  apply Forall_forall. intros f Hf.
  apply Hsub, Scan_findingOf in Hf as (r & _ & Hsup & Hk & _).
  rewrite Hk. by apply IsSupportedKind_sepFree.
Qed.

Lemma Diff_subseteq_Scan (s : Scanner) (old new : list parser.K8sResource) :
  Findings (Diff s old new) ⊆ Findings (Scan s new).
Proof.
  rewrite Diff_filter_keys. intros f Hf.
  by apply list_elem_of_filter in Hf as [_ ?].
Qed.

(** * Further properties of the code *)

(** ** The scan as a function of the resource list *)

Lemma scanAll_app (rules : list rules.Rule) (rs1 rs2 : list parser.K8sResource) :
  scanAll rules (rs1 ++ rs2) = scanAll rules rs1 ++ scanAll rules rs2.
Proof. unfold scanAll. by rewrite filter_app, bind_app. Qed.

(** X1. Scanning a concatenation of resource lists gives the concatenation
    of the scans: no rule looks at another resource than its own. *)
Theorem Scan_app (s : Scanner) (rs1 rs2 : list parser.K8sResource) :
  Findings (Scan s (rs1 ++ rs2)) = Findings (Scan s rs1) ++ Findings (Scan s rs2).
Proof.
  rewrite !Scan_scanAll, scanAll_app.
  destruct (IncludeMedium (options s)); [done|]. apply filter_app.
Qed.

(** X2. Reordering the resources reorders the findings and changes nothing
    else. *)
Theorem Scan_Permutation (s : Scanner) (rs rs' : list parser.K8sResource) :
  rs ≡ₚ rs' → Findings (Scan s rs) ≡ₚ Findings (Scan s rs').
Proof.
  intros Hperm. rewrite !Scan_scanAll. unfold scanAll.
  assert (filter (λ r, parser.IsSupportedKind (parser.Kind r) = true) rs
          ≡ₚ filter (λ r, parser.IsSupportedKind (parser.Kind r) = true) rs') as Hf
    by (by rewrite Hperm).
  destruct (IncludeMedium (options s)); by rewrite Hf.
Qed.

Lemma Scan_Permutation_witness :
  Findings (Scan mediumScanner [podNoisy; serviceWithTemplate; podUid1000])
  ≡ₚ Findings (Scan mediumScanner [podUid1000; podNoisy; serviceWithTemplate]).
Proof.
  apply Scan_Permutation.
  apply (Permutation_app_comm [podNoisy; serviceWithTemplate] [podUid1000]).
Defined.

(** The kinds [IsSupportedKind] accepts are the eleven names, letter for
    letter. *)
Lemma IsSupportedKind_iff (kind : string) :
  parser.IsSupportedKind kind = true ↔ kind ∈ supportedKinds.
Proof.
  split.
  - unfold parser.IsSupportedKind.
    destruct (parser.supported !! kind) as [b|] eqn:E; [|done].
    intros _. apply elem_of_list_to_map_2 in E.
    repeat (apply elem_of_cons in E as [[= -> ->]|E];
            [unfold supportedKinds; rewrite list_elem_of_In; simpl; tauto|]).
    by apply elem_of_nil in E.
  - unfold supportedKinds. intros E.
    repeat (apply elem_of_cons in E as [->|E]; [done|]).
    by apply elem_of_nil in E.
Qed.

(** X3. A resource whose kind is not one of the eleven supported names,
    letter for letter, contributes nothing to a scan: scanning a list is
    scanning its resources of supported kind. *)
Theorem Scan_supported_only (s : Scanner) (rs : list parser.K8sResource) :
  Findings (Scan s rs)
  = Findings (Scan s (filter (λ r, parser.Kind r ∈ supportedKinds) rs)).
Proof.
  rewrite !Scan_scanAll. unfold scanAll.
  rewrite list_filter_filter.
  rewrite (list_filter_iff
             (λ r, parser.IsSupportedKind (parser.Kind r) = true
                   ∧ parser.Kind r ∈ supportedKinds)
             (λ r, parser.IsSupportedKind (parser.Kind r) = true)); [done|].
  intros r. rewrite IsSupportedKind_iff. tauto.
Qed.

(** The rules of [AllRules] on one resource give at most twelve findings. *)
Lemma AllRules_length (resource : parser.K8sResource) :
  length (rules.AllRules ≫= λ rule, rule resource) ≤ 12.
Proof.
  pose proof (AllRules_at_most_one resource) as H.
  unfold rules.AllRules in *.
  repeat (apply Forall_cons in H as [? H]).
  rewrite !bind_cons, !length_app. simpl. lia.
Qed.

(** X4. A scan with the twelve rules returns at most twelve findings per
    resource of supported kind. *)
Theorem Scan_length_bound (o : ScanOptions) (rs : list parser.K8sResource) :
  length (Findings (Scan (NewScanner o) rs))
  ≤ 12 * length (filter (λ r, parser.Kind r ∈ supportedKinds) rs).
Proof.
  rewrite Scan_supported_only, Scan_scanAll. cbn [NewScanner rules_ options].
  assert (length (scanAll rules.AllRules
                    (filter (λ r, parser.Kind r ∈ supportedKinds) rs))
          ≤ 12 * length (filter (λ r, parser.Kind r ∈ supportedKinds) rs)) as H.
  { unfold scanAll.
    induction (filter (λ r, parser.Kind r ∈ supportedKinds) rs) as [|r l IH];
      [simpl; lia|].
    pose proof (AllRules_length r).
    destruct (decide (parser.IsSupportedKind (parser.Kind r) = true)).
    - rewrite filter_cons_True, bind_cons, length_app by done. simpl in *. lia.
    - rewrite filter_cons_False by done. simpl in *. lia. }
  destruct (IncludeMedium o); [done|].
  etrans; [apply length_filter|done].
Qed.

(** ** What a finding of a scan looks like *)

Lemma finding_text (resource : parser.K8sResource)
    (ruleID : string) (sev : Severity) (reason impact fix_ : string) :
  sev = severityOf ruleID → reason ≠ "" → impact ≠ "" → fix_ ≠ "" →
  let f := rules.finding resource ruleID sev reason impact fix_ in
  Sev f = severityOf (RuleID f) ∧ Reason f ≠ "" ∧ Impact f ≠ "" ∧ Fix f ≠ "".
Proof. by intros. Qed.

(** Closes [f ∈ rule resource → ...] for one rule by [finding_text]. *)
Local Ltac finding_text_of_rule :=
  intros f Hf; repeat case_match;
  try (by apply elem_of_nil in Hf);
  try (apply or_nil_range_return_elem in Hf as (? & ? & _ & ? & Hf);
       repeat case_match; simplify_eq);
  apply list_elem_of_singleton in Hf as ->;
  apply finding_text; done.

Lemma AllRules_finding_text (resource : parser.K8sResource) :
  Forall (λ rule : rules.Rule, ∀ f, f ∈ rule resource →
            Sev f = severityOf (RuleID f)
            ∧ Reason f ≠ "" ∧ Impact f ≠ "" ∧ Fix f ≠ "")
    rules.AllRules.
Proof.
  unfold rules.AllRules.
  repeat first [apply Forall_nil_2 | apply Forall_cons_2].
  - unfold rules.CheckPrivilegedContainer. finding_text_of_rule.
  - unfold rules.CheckHostPath. finding_text_of_rule.
  - unfold rules.CheckDockerSocket. finding_text_of_rule.
  - unfold rules.CheckRunsAsRoot, rules.runsAsRootBody. finding_text_of_rule.
  - unfold rules.CheckPrivilegeEscalation. finding_text_of_rule.
  - unfold rules.CheckWildcardRBAC. finding_text_of_rule.
  - unfold rules.CheckClusterRoleBindingDefaultSA. finding_text_of_rule.
  - unfold rules.CheckPublicLoadBalancer. finding_text_of_rule.
  - unfold rules.CheckNodePort. finding_text_of_rule.
  - unfold rules.CheckLatestTag. finding_text_of_rule.
  - unfold rules.CheckHostNetwork. finding_text_of_rule.
  - unfold rules.CheckHostPIDIPC. finding_text_of_rule.
Qed.

Lemma Scan_in_scanAll (s : Scanner) (rs : list parser.K8sResource) (f : Finding) :
  f ∈ Findings (Scan s rs) →
  f ∈ scanAll (rules_ s) rs ∧ (IncludeMedium (options s) = false → Sev f = High).
Proof.
  rewrite Scan_scanAll. destruct (IncludeMedium (options s)).
  - by split.
  - intros [? ?]%list_elem_of_filter. by split.
Qed.

(** X5. Every finding of a scan with the twelve rules copies the kind,
    name and namespace of an input resource of supported kind; its rule
    identifier is one of the twelve and fixes its severity (MEDIUM for
    runs-as-root, nodeport-service and latest-image-tag, HIGH otherwise);
    its kind, reason, impact and fix are not empty; and without the
    include-medium option it is HIGH. *)
Theorem Scan_finding_shape (o : ScanOptions) (rs : list parser.K8sResource)
    (f : Finding) :
  f ∈ Findings (Scan (NewScanner o) rs) →
  (∃ r, r ∈ rs ∧ parser.Kind r ∈ supportedKinds
        ∧ Kind f = parser.Kind r
        ∧ Name f = parser.Name (parser.Metadata r)
        ∧ Namespace f = parser.Namespace (parser.Metadata r))
  ∧ RuleID f ∈ ruleIDs
  ∧ Sev f = severityOf (RuleID f)
  ∧ Kind f ≠ "" ∧ Reason f ≠ "" ∧ Impact f ≠ "" ∧ Fix f ≠ ""
  ∧ (IncludeMedium o = false → Sev f = High).
Proof.
  intros Hf.
  destruct (Scan_findingOf _ _ _ Hf) as (r & Hr & Hsup & Hk & Hn & Hns & Hid).
  apply Scan_in_scanAll in Hf as [Hin Hhigh]. cbn [NewScanner rules_ options] in *.
  unfold scanAll in Hin.
  apply list_elem_of_bind in Hin as (r' & Hin & _).
  apply list_elem_of_bind in Hin as (rule & Hin & Hrule).
  pose proof (AllRules_finding_text r') as Hall. rewrite Forall_forall in Hall.
  destruct (Hall rule Hrule f Hin) as (Hsev & Hreason & Himpact & Hfix).
  apply IsSupportedKind_iff in Hsup.
  split; [by exists r|]. repeat split; try done.
  rewrite Hk. intros E. rewrite E in Hsup. revert Hsup.
  unfold supportedKinds. rewrite list_elem_of_In. simpl. intros H.
  repeat destruct H as [H|H]; done.
Qed.

Lemma Scan_finding_shape_witness :
  Sev (rules.privilegedFinding podApi) = severityOf "privileged-container"
  ∧ Sev (rules.privilegedFinding podApi) = High.
Proof.
  destruct (Scan_finding_shape (mkScanOptions false FormatHuman) [podApi]
              (rules.privilegedFinding podApi))
    as (_ & _ & Hsev & _ & _ & _ & _ & Hhigh).
  - apply list_elem_of_In. vm_compute. by left.
  - split; [exact Hsev|]. apply Hhigh. reflexivity.
Defined.

(** ** What the rules read *)

Lemma AllRules_same_inputs (r r' : parser.K8sResource) :
  sameRuleInputs r r' →
  Forall (λ rule : rules.Rule, rule r = rule r') rules.AllRules.
Proof.
  destruct r as [? ? [] ? ? ? ? ?], r' as [? ? [] ? ? ? ? ?].
  intros (? & ? & ? & ? & ? & ? & ?). simplify_eq/=.
  unfold rules.AllRules.
  repeat first [apply Forall_nil_2 | apply Forall_cons_2]; reflexivity.
Qed.

Lemma bind_rules_same (rules : list rules.Rule) (r r' : parser.K8sResource) :
  Forall (λ rule : rules.Rule, rule r = rule r') rules →
  rules ≫= (λ rule, rule r) = rules ≫= (λ rule, rule r').
Proof.
  induction 1 as [|rule rules Hrule _ IH]; [done|].
  by rewrite !bind_cons, Hrule, IH.
Qed.

(** X6. The rules read the kind, the name, the namespace, the annotations,
    the spec, the RBAC rules and the subjects of a resource, and nothing
    else: two resource lists that differ only in [APIVersion], [Labels],
    [RoleRef] and [Raw] get the same findings. *)
Theorem Scan_same_inputs (o : ScanOptions) (rs rs' : list parser.K8sResource) :
  Forall2 sameRuleInputs rs rs' →
  Findings (Scan (NewScanner o) rs) = Findings (Scan (NewScanner o) rs').
Proof.
  intros H. rewrite !Scan_scanAll. cbn [NewScanner rules_ options].
  assert (scanAll rules.AllRules rs = scanAll rules.AllRules rs') as ->;
    [|done].
  unfold scanAll. induction H as [|r r' rs rs' Hr _ IH]; [done|].
  pose proof (AllRules_same_inputs r r' Hr) as Hrules.
  destruct Hr as (Hk & _).
  destruct (decide (parser.IsSupportedKind (parser.Kind r) = true)) as [Hs|Hs].
  - rewrite !filter_cons_True, !bind_cons by (by rewrite <- ?Hk).
    rewrite IH. f_equal. by apply bind_rules_same.
  - rewrite !filter_cons_False by (by rewrite <- ?Hk). done.
Qed.

Lemma Scan_same_inputs_witness :
  Findings (Scan defaultScanner [podApi])
  = Findings (Scan defaultScanner [podApiVariant]).
Proof.
  apply Scan_same_inputs. constructor; [|constructor].
  repeat split.
Defined.

(** ** The diff as a function of its two sides *)

(** X7. [Diff] reports findings of the new scan, in the order of that scan,
    and never one whose identity tuple is that of an old finding: it is a
    sublist of the diff by identity. *)
Theorem Diff_sound (s : Scanner) (old new : list parser.K8sResource) :
  sublist (Findings (Diff s old new)) (DiffByIdentity s old new)
  ∧ sublist (DiffByIdentity s old new) (Findings (Scan s new)).
Proof.
  split; [|apply sublist_filter].
  rewrite Diff_filter_keys. unfold DiffByIdentity.
  induction (Findings (Scan s new)) as [|f fs IH]; [done|].
  rewrite !filter_cons.
  destruct (decide (findingKey f ∉ findingKey <$> Findings (Scan s old)))
    as [Hk|Hk].
  - rewrite decide_True; [by constructor|].
    intros (g & E & Hg)%list_elem_of_fmap. apply Hk.
    apply list_elem_of_fmap. exists g. split; [|done].
    by apply identity_findingKey.
  - case_decide; [by constructor|done].
Qed.

(** X8. With no old resource the diff is the scan of the new side; with no
    new resource it is empty. *)
Theorem Diff_empty_side (s : Scanner) (rs : list parser.K8sResource) :
  Findings (Diff s [] rs) = Findings (Scan s rs)
  ∧ Findings (Diff s rs []) = [].
Proof.
  rewrite !Diff_filter_keys. split.
  - assert (Findings (Scan s []) = []) as ->
      by (rewrite Scan_scanAll; by destruct (IncludeMedium (options s))).
    induction (Findings (Scan s rs)) as [|f fs IH]; [done|].
    rewrite filter_cons_True by apply not_elem_of_nil. by rewrite IH.
  - assert (Findings (Scan s []) = []) as ->
      by (rewrite Scan_scanAll; by destruct (IncludeMedium (options s))).
    done.
Qed.

(** X9. The diff of a concatenated new side is the concatenation of the
    diffs: each new resource is judged against the old side alone. *)
Theorem Diff_app_new (s : Scanner) (old new1 new2 : list parser.K8sResource) :
  Findings (Diff s old (new1 ++ new2))
  = Findings (Diff s old new1) ++ Findings (Diff s old new2).
Proof. by rewrite !Diff_filter_keys, Scan_app, filter_app. Qed.

Lemma Diff_same_nil (s : Scanner) (rs : list parser.K8sResource) :
  filter (λ f, findingKey f ∉ findingKey <$> Findings (Scan s rs))
         (Findings (Scan s rs)) = [].
Proof.
  apply elem_of_nil_inv. intros f [Hf Hin]%list_elem_of_filter.
  by apply Hf, list_elem_of_fmap_2.
Qed.

(** X10. Resources that are carried over from the old side are never
    reported, wherever they stand in the new list: only the resources
    around them are. *)
Theorem Diff_carried_over (s : Scanner) (old pre post : list parser.K8sResource) :
  Findings (Diff s old (pre ++ old ++ post))
  = Findings (Diff s old (pre ++ post)).
Proof.
  rewrite !Diff_filter_keys, !Scan_app, !filter_app.
  by rewrite Diff_same_nil.
Qed.

Lemma filter_keys_sublist (keys keys' : list string) (fs : list Finding) :
  keys ⊆ keys' →
  sublist (filter (λ f, findingKey f ∉ keys') fs)
          (filter (λ f, findingKey f ∉ keys) fs).
Proof.
  intros Hsub. induction fs as [|f fs IH]; [done|].
  rewrite !filter_cons.
  destruct (decide (findingKey f ∉ keys')) as [Hk|Hk].
  - rewrite decide_True by (intros ?; by apply Hk, Hsub). by constructor.
  - case_decide; [by constructor|done].
Qed.

(** X11. Adding resources to the old side can only remove findings from
    the diff. *)
Theorem Diff_more_old (s : Scanner) (old more new : list parser.K8sResource) :
  sublist (Findings (Diff s (old ++ more) new)) (Findings (Diff s old new)).
Proof.
  rewrite !Diff_filter_keys. apply filter_keys_sublist.
  rewrite Scan_app, fmap_app. intros k Hk. apply elem_of_app. by left.
Qed.

(** X12. The order of the old side does not matter to the diff. *)
Theorem Diff_old_Permutation (s : Scanner) (old old' new : list parser.K8sResource) :
  old ≡ₚ old' →
  Findings (Diff s old new) = Findings (Diff s old' new).
Proof.
  intros Hperm. rewrite !Diff_filter_keys.
  apply list_filter_iff. intros f.
  assert (Findings (Scan s old) ≡ₚ Findings (Scan s old')) as Hscan.
  { rewrite !Scan_scanAll. unfold scanAll.
    assert (filter (λ r, parser.IsSupportedKind (parser.Kind r) = true) old
            ≡ₚ filter (λ r, parser.IsSupportedKind (parser.Kind r) = true) old')
      as Hf by (by rewrite Hperm).
    destruct (IncludeMedium (options s)); by rewrite Hf. }
  by rewrite Hscan.
Qed.

Lemma Diff_old_Permutation_witness :
  Findings (Diff mediumScanner [podApi; podUid1000] [podNoisy; podUid1000])
  = Findings (Diff mediumScanner [podUid1000; podApi] [podNoisy; podUid1000]).
Proof.
  apply Diff_old_Permutation. apply perm_swap.
Defined.

(** ** The exit code as a function of the findings *)

Lemma GetExitCode_cases (findings : list Finding) :
  GetExitCode findings
  = if decide (Exists (λ f, Sev f = High) findings) then ExitHigh
    else if decide (Exists (λ f, Sev f = Medium) findings) then ExitMedium
    else ExitOK.
Proof.
  unfold GetExitCode. rewrite GetExitCode_flags. cbn [orb].
  repeat case_bool_decide; repeat case_decide; done.
Qed.

(** X13. The exit code of two finding lists put together is the larger of
    their exit codes. *)
Theorem GetExitCode_app (fs1 fs2 : list Finding) :
  GetExitCode (fs1 ++ fs2) = Z.max (GetExitCode fs1) (GetExitCode fs2).
Proof.
  rewrite !GetExitCode_cases. unfold ExitHigh, ExitMedium, ExitOK.
  repeat case_decide; try lia;
    repeat match goal with
    | H : Exists _ (_ ++ _) |- _ => apply Exists_app in H as [?|?]
    | H : ¬ Exists _ (_ ++ _) |- _ => rewrite Exists_app in H
    end; tauto.
Qed.

(** X14. The exit code computed from findings is 0, 1 or 2, never the
    error code 3, and it does not decrease when findings are added: it
    depends on the set of findings only. *)
Theorem GetExitCode_monotone (fs fs' : list Finding) :
  fs ⊆ fs' →
  (0 ≤ GetExitCode fs ≤ GetExitCode fs')%Z ∧ (GetExitCode fs' ≤ 2)%Z
  ∧ GetExitCode fs' ≠ ExitError.
Proof.
  intros Hsub. rewrite !GetExitCode_cases.
  unfold ExitHigh, ExitMedium, ExitOK, ExitError.
  assert (∀ sev, Exists (λ f, Sev f = sev) fs → Exists (λ f, Sev f = sev) fs')
    as Hex.
  { intros sev (f & Hf & E)%Exists_exists. apply Exists_exists.
    exists f. split; [by apply Hsub|done]. }
  repeat case_decide; try lia;
    repeat match goal with
    | H : Exists _ fs |- _ => apply Hex in H
    end; done.
Qed.

Lemma GetExitCode_monotone_witness :
  (0 ≤ GetExitCode [sampleFinding Medium "Pod" "api" "prod"]
     ≤ GetExitCode [sampleFinding High "Pod" "web" "prod";
                    sampleFinding Medium "Pod" "api" "prod"])%Z.
Proof.
  apply (GetExitCode_monotone [sampleFinding Medium "Pod" "api" "prod"]
           [sampleFinding High "Pod" "web" "prod";
            sampleFinding Medium "Pod" "api" "prod"]).
  intros f Hf. by right.
Defined.

(** X15. Without the include-medium option the exit code of a scan or of a
    diff is 0 or 2, never the medium code 1, whatever the rules. *)
Theorem GetExitCode_high_only (s : Scanner) (old new : list parser.K8sResource) :
  IncludeMedium (options s) = false →
  (GetExitCode (Findings (Scan s new)) = ExitOK
   ∨ GetExitCode (Findings (Scan s new)) = ExitHigh)
  ∧ (GetExitCode (Findings (Diff s old new)) = ExitOK
     ∨ GetExitCode (Findings (Diff s old new)) = ExitHigh).
Proof.
  intros Hopt.
  assert (∀ f, f ∈ Findings (Scan s new) → Sev f = High) as Hhigh.
  { intros f Hf. by apply Scan_in_scanAll in Hf as [_ ->]. }
  assert (∀ fs, fs ⊆ Findings (Scan s new) →
            GetExitCode fs = ExitOK ∨ GetExitCode fs = ExitHigh) as Hcode.
  { intros fs Hfs. rewrite GetExitCode_cases.
    repeat case_decide; auto.
    match goal with H : Exists _ fs |- _ =>
      apply Exists_exists in H as (f & Hf & E) end.
    rewrite (Hhigh f) in E by (by apply Hfs). discriminate. }
  split; apply Hcode; [done|apply Diff_subseteq_Scan].
Qed.

Lemma GetExitCode_high_only_witness :
  GetExitCode (Findings (Scan defaultScanner [podUid1000; podApi])) = ExitOK
  ∨ GetExitCode (Findings (Scan defaultScanner [podUid1000; podApi])) = ExitHigh.
Proof.
  apply (GetExitCode_high_only defaultScanner [] [podUid1000; podApi]).
  reflexivity.
Defined.

(** X16. With the twelve rules, a scan exits with 0 exactly when it finds
    nothing: every finding of a rule is HIGH or MEDIUM. *)
Theorem GetExitCode_zero_iff_clean (o : ScanOptions) (rs : list parser.K8sResource) :
  GetExitCode (Findings (Scan (NewScanner o) rs)) = ExitOK
  ↔ Findings (Scan (NewScanner o) rs) = [].
Proof.
  split; [|by intros ->].
  rewrite GetExitCode_cases.
  destruct (Findings (Scan (NewScanner o) rs)) as [|f fs] eqn:E; [done|].
  assert (f ∈ Findings (Scan (NewScanner o) rs)) as Hf by (rewrite E; by left).
  apply Scan_in_scanAll in Hf as [Hin _]. cbn [NewScanner rules_] in Hin.
  unfold scanAll in Hin.
  apply list_elem_of_bind in Hin as (r & Hin & _).
  apply list_elem_of_bind in Hin as (rule & Hin & Hrule).
  pose proof (AllRules_finding_text r) as Hall. rewrite Forall_forall in Hall.
  destruct (Hall rule Hrule f Hin) as (Hsev & _).
  unfold severityOf in Hsev.
  repeat case_decide; try done.
  - exfalso. match goal with H : ¬ Exists _ (f :: fs) |- _ => apply H end.
    by apply Exists_cons_hd.
  - exfalso. match goal with H : ¬ Exists (λ f, Sev f = High) (f :: fs) |- _ =>
      apply H end. by apply Exists_cons_hd.
Qed.

(** X17. The exit code of a diff is never above the exit code of the scan
    of its new side. *)
Theorem GetExitCode_Diff_le_Scan (s : Scanner) (old new : list parser.K8sResource) :
  (GetExitCode (Findings (Diff s old new)) ≤ GetExitCode (Findings (Scan s new)))%Z.
Proof.
  rewrite !GetExitCode_cases. unfold ExitHigh, ExitMedium, ExitOK.
  assert (∀ sev, Exists (λ f, Sev f = sev) (Findings (Diff s old new)) →
                 Exists (λ f, Sev f = sev) (Findings (Scan s new))) as Hex.
  { intros sev (f & Hf & E)%Exists_exists. apply Exists_exists.
    exists f. split; [by apply Diff_subseteq_Scan in Hf|done]. }
  repeat case_decide; try lia;
    repeat match goal with
    | H : Exists _ (Findings (Diff _ _ _)) |- _ => apply Hex in H
    end; done.
Qed.

(** ** The summary as a function of the findings *)

Lemma length_remove_dups_le {A : Type} `{EqDecision A} (l : list A) :
  length (remove_dups l) ≤ length l.
Proof.
  induction l as [|x l IH]; [done|]. cbn [remove_dups].
  destruct (decide_rel elem_of x l); simpl; lia.
Qed.

Lemma count_pos_Exists {A : Type} (P : A → Prop) `{!∀ x, Decision (P x)}
    (l : list A) :
  0 < length (filter P l) ↔ Exists P l.
Proof.
  induction l as [|x l IH].
  - split; [simpl; lia|by intros ?%Exists_nil].
  - rewrite filter_cons, Exists_cons. case_decide; simpl; [|tauto].
    split; [tauto|lia].
Qed.

Lemma GetSummary_sets (findings : list Finding) :
  ResourcesAffected (GetSummary findings)
  = Z.of_nat (length (remove_dups (resourceKey <$> findings)))
  ∧ NamespacesAffected (GetSummary findings)
    = Z.of_nat (distinctNamespaces findings).
Proof.
  unfold GetSummary. fold summaryStart.
  cbn [ResourcesAffected NamespacesAffected].
  rewrite summary_namespaces. split; [|done]. f_equal.
  destruct (summary_sets findings summaryStart) as [Hr _].
  apply size_set_of_keys. set_solver.
Qed.

(** X18. As long as the counters do not wrap (the list is a Go slice), the
    exit code can be read off the summary: 2 when the high count is
    positive, otherwise 1 when the medium count is positive, otherwise 0. *)
Theorem GetExitCode_of_GetSummary (findings : list Finding) :
  (Z.of_nat (length findings) ≤ int_max)%Z →
  GetExitCode findings
  = if (0 <? SummaryHigh (GetSummary findings))%Z then ExitHigh
    else if (0 <? SummaryMedium (GetSummary findings))%Z then ExitMedium
    else ExitOK.
Proof.
  intros Hlen. rewrite GetExitCode_cases. unfold GetSummary. fold summaryStart.
  cbn [SummaryHigh SummaryMedium].
  destruct (summary_counters findings summaryStart) as [-> ->]; try (cbn; lia).
  cbn [summaryStart high medium]. unfold countSeverity.
  repeat case_decide;
    repeat match goal with
    | |- context [(?x <? ?y)%Z] => destruct (Z.ltb_spec x y)
    end; try done; exfalso;
    repeat match goal with
    | H : Exists ?P ?l |- _ => apply (proj2 (count_pos_Exists P l)) in H
    | H : ¬ Exists ?P ?l |- _ => rewrite <- (count_pos_Exists P l) in H
    end; lia.
Qed.

Lemma GetExitCode_of_GetSummary_witness :
  GetExitCode [sampleFinding Medium "Pod" "api" "prod";
               sampleFinding Medium "Pod" "web" "prod"]
  = ExitMedium.
Proof.
  rewrite GetExitCode_of_GetSummary.
  - reflexivity.
  - vm_compute. discriminate.
Defined.

(** X19. The two distinct counts of the summary lie between 0 and the
    number of findings; no resource is affected exactly when there is no
    finding, and no namespace is affected exactly when every finding has an
    empty namespace. *)
Theorem GetSummary_affected_bounds (findings : list Finding) :
  (0 ≤ ResourcesAffected (GetSummary findings) ≤ Z.of_nat (length findings))%Z
  ∧ (0 ≤ NamespacesAffected (GetSummary findings) ≤ Z.of_nat (length findings))%Z
  ∧ (ResourcesAffected (GetSummary findings) = 0%Z ↔ findings = [])
  ∧ (NamespacesAffected (GetSummary findings) = 0%Z
     ↔ Forall (λ f, Namespace f = "") findings).
Proof.
  destruct (GetSummary_sets findings) as [-> ->]. unfold distinctNamespaces.
  pose proof (length_remove_dups_le (resourceKey <$> findings)) as Hr.
  pose proof (length_remove_dups_le
                (filter (λ ns, ns ≠ "") (Namespace <$> findings))) as Hn.
  pose proof (length_filter (λ ns, ns ≠ "") (Namespace <$> findings)) as Hf.
  rewrite length_fmap in Hr, Hf.
  split; [lia|]. split; [lia|]. split.
  - split; [|by intros ->].
    intros H. destruct findings as [|f fs]; [done|]. exfalso.
    assert (resourceKey f ∈ remove_dups (resourceKey <$> f :: fs)) as Hin
      by (apply elem_of_remove_dups; by left).
    destruct (remove_dups (resourceKey <$> f :: fs)); [|simpl in H; lia].
    by apply elem_of_nil in Hin.
  - split.
    + intros H. apply Forall_forall. intros f Hf'.
      destruct (decide (Namespace f = "")) as [|Hne]; [done|]. exfalso.
      assert (Namespace f
              ∈ remove_dups (filter (λ ns, ns ≠ "") (Namespace <$> findings)))
        as Hin.
      { apply elem_of_remove_dups, list_elem_of_filter. split; [done|].
        by apply list_elem_of_fmap_2. }
      destruct (remove_dups (filter (λ ns, ns ≠ "") (Namespace <$> findings)));
        [|simpl in H; lia].
      by apply elem_of_nil in Hin.
    + intros Hall.
      assert (filter (λ ns, ns ≠ "") (Namespace <$> findings) = []) as ->;
        [|done].
      apply elem_of_nil_inv. intros ns [Hne Hin]%list_elem_of_filter.
      apply list_elem_of_fmap in Hin as (f & -> & Hf').
      rewrite Forall_forall in Hall. by apply Hne, Hall.
Qed.

Lemma iter_int_incr_comm (n : nat) (x : Z) :
  Nat.iter n int_incr (int_incr x) = int_incr (Nat.iter n int_incr x).
Proof. induction n as [|n IH]; [done|]. simpl. by rewrite IH. Qed.

(** The counters after the loop, wrap-around included: each is [x++] run
    once per finding of its severity. *)
Lemma summary_counters_iter (findings : list Finding) (st : summaryState) :
  high (fold_left summaryStep findings st)
  = Nat.iter (countSeverity High findings) int_incr (high st)
  ∧ medium (fold_left summaryStep findings st)
    = Nat.iter (countSeverity Medium findings) int_incr (medium st).
Proof.
  unfold countSeverity.
  revert st. induction findings as [|f fs IH]; intros st; [done|].
  cbn [fold_left]. destruct (IH (summaryStep st f)) as [-> ->].
  rewrite !filter_cons. unfold summaryStep; cbn [high medium].
  destruct (String.eqb_spec (Sev f) High) as [E|E].
  - rewrite decide_True by done.
    rewrite decide_False by (rewrite E; discriminate).
    cbn [length Nat.iter]. by rewrite iter_int_incr_comm.
  - rewrite decide_False by done.
    destruct (String.eqb_spec (Sev f) Medium) as [E'|E'].
    + rewrite decide_True by done. cbn [length Nat.iter].
      by rewrite iter_int_incr_comm.
    + by rewrite decide_False by done.
Qed.

(** X20. The summary does not depend on the order of the findings. *)
Theorem GetSummary_Permutation (fs fs' : list Finding) :
  fs ≡ₚ fs' → GetSummary fs = GetSummary fs'.
Proof.
  intros Hperm. unfold GetSummary. fold summaryStart.
  destruct (summary_counters_iter fs summaryStart) as [-> ->].
  destruct (summary_counters_iter fs' summaryStart) as [-> ->].
  destruct (summary_sets fs summaryStart) as [Hr Hn].
  destruct (summary_sets fs' summaryStart) as [Hr' Hn'].
  assert (∀ sev, countSeverity sev fs = countSeverity sev fs') as Hcount.
  { intros sev. unfold countSeverity. by rewrite Hperm. }
  rewrite !Hcount.
  rewrite <- !size_dom, Hr, Hn, Hr', Hn'.
  by rewrite Hperm.
Qed.

Lemma GetSummary_Permutation_witness :
  GetSummary [sampleFinding High "Pod" "api" "prod";
              sampleFinding Medium "Service" "edge" ""]
  = GetSummary [sampleFinding Medium "Service" "edge" "";
                sampleFinding High "Pod" "api" "prod"].
Proof. apply GetSummary_Permutation. apply perm_swap. Defined.

(** X21. As long as the counters do not wrap, they are non-negative and
    the high and medium counts together do not exceed the number of
    findings; on the findings of a scan with the twelve rules they add up
    to it. *)
Theorem GetSummary_severity_counts (o : ScanOptions)
    (rs : list parser.K8sResource) (findings : list Finding) :
  (Z.of_nat (length findings) ≤ int_max)%Z →
  (0 ≤ SummaryHigh (GetSummary findings))%Z
  ∧ (0 ≤ SummaryMedium (GetSummary findings))%Z
  ∧ (SummaryHigh (GetSummary findings) + SummaryMedium (GetSummary findings)
     ≤ Z.of_nat (length findings))%Z
  ∧ (findings ⊆ Findings (Scan (NewScanner o) rs) →
     (SummaryHigh (GetSummary findings) + SummaryMedium (GetSummary findings)
      = Z.of_nat (length findings))%Z).
Proof.
  intros Hlen. unfold GetSummary. fold summaryStart.
  cbn [SummaryHigh SummaryMedium].
  destruct (summary_counters findings summaryStart) as [-> ->]; try (cbn; lia).
  cbn [summaryStart high medium]. unfold countSeverity.
  assert (length (filter (λ f, Sev f = High) findings)
          + length (filter (λ f, Sev f = Medium) findings) ≤ length findings
          ∧ (Forall (λ f, Sev f = High ∨ Sev f = Medium) findings →
             length (filter (λ f, Sev f = High) findings)
             + length (filter (λ f, Sev f = Medium) findings) = length findings))
    as [Hle Heq].
  { clear. induction findings as [|f fs [IH1 IH2]]; [done|].
    rewrite !filter_cons. split.
    - repeat case_decide; simpl; try lia.
      match goal with H1 : Sev f = High, H2 : Sev f = Medium |- _ =>
        rewrite H1 in H2; discriminate end.
    - intros [Hf Hfs]%Forall_cons. specialize (IH2 Hfs).
      repeat case_decide; simpl; try lia.
      + match goal with H1 : Sev f = High, H2 : Sev f = Medium |- _ =>
          rewrite H1 in H2; discriminate end.
      + tauto. }
  split; [lia|]. split; [lia|]. split; [lia|].
  intros Hsub.
  assert (Forall (λ f, Sev f = High ∨ Sev f = Medium) findings) as HF;
    [|specialize (Heq HF); lia].
  apply Forall_forall. intros f Hf.
  apply Hsub, Scan_in_scanAll in Hf as [Hin _]. cbn [NewScanner rules_] in Hin.
  unfold scanAll in Hin.
  apply list_elem_of_bind in Hin as (r & Hin & _).
  apply list_elem_of_bind in Hin as (rule & Hin & Hrule).
  pose proof (AllRules_finding_text r) as Hall. rewrite Forall_forall in Hall.
  destruct (Hall rule Hrule f Hin) as (-> & _).
  unfold severityOf. case_decide; auto.
Qed.

Lemma GetSummary_severity_counts_witness :
  (SummaryHigh (GetSummary (Findings (Scan mediumScanner [podNoisy])))
   + SummaryMedium (GetSummary (Findings (Scan mediumScanner [podNoisy])))
   = 3)%Z.
Proof.
  destruct (GetSummary_severity_counts (mkScanOptions true FormatHuman)
              [podNoisy] (Findings (Scan mediumScanner [podNoisy])))
    as (_ & _ & _ & H).
  - vm_compute. discriminate.
  - rewrite H; [reflexivity|]. intros f Hf. exact Hf.
Defined.

(** ** What triggers each rule *)

Lemma existsb_Exists {A : Type} (p : A → bool) (P : A → Prop) (l : list A) :
  (∀ x, p x = true ↔ P x) → existsb p l = true ↔ Exists P l.
Proof.
  intros Hp. induction l as [|x l IH]; simpl.
  - split; [done|by intros ?%Exists_nil].
  - rewrite Exists_cons, orb_true_iff, IH, Hp. done.
Qed.

(** A loop whose body returns one fixed finding on the elements that pass a
    test yields that finding when some element passes, and nothing
    otherwise. *)
Lemma range_return_test {A : Type} (p : A → bool) (f : Finding) (l : list A) :
  rules.or_nil (range_return (λ x, if p x then Some [f] else None) l)
  = if existsb p l then [f] else [].
Proof.
  induction l as [|x l IH]; simpl; [done|].
  destruct (p x); simpl; [done|]. apply IH.
Qed.

Lemma hasWildcard_elem (xs : list string) :
  rules.hasWildcard xs = true ↔ "*" ∈ xs.
Proof.
  unfold rules.hasWildcard. rewrite (existsb_Exists _ (λ x, x = "*")).
  - rewrite Exists_exists. split; [by intros (x & ? & ->)|by exists "*"].
  - intros x. apply String.eqb_eq.
Qed.

(** X22. The wildcard-rbac rule reports its one finding exactly on a Role
    or ClusterRole that has a rule entry with "*" among its verbs and "*"
    among its resources, both in the same entry; the API groups are not
    looked at. *)
Theorem CheckWildcardRBAC_trigger (resource : parser.K8sResource) :
  rules.CheckWildcardRBAC resource
  = if decide (parser.Kind resource ∈ ["Role"; "ClusterRole"]
               ∧ Exists wildcardEntry (parser.Rules resource))
    then [rules.wildcardRBACFinding resource] else [].
Proof.
  unfold rules.CheckWildcardRBAC.
  rewrite (range_return_test
             (λ rule, rules.hasWildcard (parser.Verbs rule)
                      && rules.hasWildcard (parser.Resources rule))).
  assert (existsb (λ rule, rules.hasWildcard (parser.Verbs rule)
                           && rules.hasWildcard (parser.Resources rule))
            (parser.Rules resource) = true
          ↔ Exists wildcardEntry (parser.Rules resource)) as Hex.
  { apply existsb_Exists. intros rule. unfold wildcardEntry.
    by rewrite andb_true_iff, !hasWildcard_elem. }
  destruct (String.eqb_spec (parser.Kind resource) "Role") as [E|E];
    destruct (String.eqb_spec (parser.Kind resource) "ClusterRole") as [E'|E'];
    cbn [negb andb];
    try (destruct (existsb _ (parser.Rules resource)) eqn:Eb;
         [rewrite decide_True; [done|]; split; [|by apply Hex];
          rewrite ?E, ?E', list_elem_of_In; simpl; tauto
         |rewrite decide_False; [done|]; intros [_ H]; apply Hex in H; congruence]).
  rewrite decide_False; [done|]. intros [H _]. revert H.
  rewrite list_elem_of_In. simpl. intros [?|[?|[]]]; congruence.
Qed.

(** X23. The default-service-account rule reports its one finding exactly
    on a RoleBinding or ClusterRoleBinding that has a subject of kind
    ServiceAccount named "default"; the subject's namespace is not looked
    at. *)
Theorem CheckClusterRoleBindingDefaultSA_trigger (resource : parser.K8sResource) :
  rules.CheckClusterRoleBindingDefaultSA resource
  = if decide (parser.Kind resource ∈ ["ClusterRoleBinding"; "RoleBinding"]
               ∧ Exists defaultServiceAccount (parser.Subjects resource))
    then [rules.defaultSAFinding resource] else [].
Proof.
  unfold rules.CheckClusterRoleBindingDefaultSA.
  rewrite (range_return_test
             (λ subject, String.eqb (parser.SubjectKind subject) "ServiceAccount"
                         && String.eqb (parser.SubjectName subject) "default")).
  assert (existsb (λ subject,
                     String.eqb (parser.SubjectKind subject) "ServiceAccount"
                     && String.eqb (parser.SubjectName subject) "default")
            (parser.Subjects resource) = true
          ↔ Exists defaultServiceAccount (parser.Subjects resource)) as Hex.
  { apply existsb_Exists. intros subject. unfold defaultServiceAccount.
    by rewrite andb_true_iff, !String.eqb_eq. }
  destruct (String.eqb_spec (parser.Kind resource) "ClusterRoleBinding") as [E|E];
    destruct (String.eqb_spec (parser.Kind resource) "RoleBinding") as [E'|E'];
    cbn [negb andb];
    try (destruct (existsb _ (parser.Subjects resource)) eqn:Eb;
         [rewrite decide_True; [done|]; split; [|by apply Hex];
          rewrite ?E, ?E', list_elem_of_In; simpl; tauto
         |rewrite decide_False; [done|]; intros [_ H]; apply Hex in H; congruence]).
  rewrite decide_False; [done|]. intros [H _]. revert H.
  rewrite list_elem_of_In. simpl. intros [?|[?|[]]]; congruence.
Qed.

(** X24. The two Service rules: public-loadbalancer fires exactly on a
    Service of type "LoadBalancer" in the namespace kube-system, prod or
    production; nodeport-service fires exactly on a Service of type
    "NodePort" that lacks the justification annotation, whatever value the
    annotation would hold; and no resource gets both findings. *)
Theorem Service_rules_trigger (resource : parser.K8sResource) :
  rules.CheckPublicLoadBalancer resource
  = (if decide (parser.Kind resource = "Service"
                ∧ parser.Namespace (parser.Metadata resource)
                  ∈ ["kube-system"; "prod"; "production"]
                ∧ parser.asString (parser.Spec resource !! "type")
                  = Some "LoadBalancer")
     then [rules.publicLoadBalancerFinding resource] else [])
  ∧ rules.CheckNodePort resource
    = (if decide (parser.Kind resource = "Service"
                  ∧ parser.asString (parser.Spec resource !! "type")
                    = Some "NodePort"
                  ∧ parser.Annotations (parser.Metadata resource)
                      !! "danger-scan/nodeport-justified" = None)
       then [rules.nodePortFinding resource] else [])
  ∧ (rules.CheckPublicLoadBalancer resource = []
     ∨ rules.CheckNodePort resource = []).
Proof.
  assert (∀ ns, default false (rules.sensitiveNamespaces !! ns) = true
                ↔ ns ∈ ["kube-system"; "prod"; "production"]) as Hns.
  { intros ns. split.
    - destruct (rules.sensitiveNamespaces !! ns) as [b|] eqn:E; [|done].
      intros _. apply elem_of_list_to_map_2 in E.
      repeat (apply elem_of_cons in E as [[= -> ->]|E];
              [rewrite list_elem_of_In; simpl; tauto|]).
      by apply elem_of_nil in E.
    - intros E. repeat (apply elem_of_cons in E as [->|E]; [done|]).
      by apply elem_of_nil in E. }
  specialize (Hns (parser.Namespace (parser.Metadata resource))).
  assert (rules.CheckPublicLoadBalancer resource
          = (if decide (parser.Kind resource = "Service"
                        ∧ parser.Namespace (parser.Metadata resource)
                          ∈ ["kube-system"; "prod"; "production"]
                        ∧ parser.asString (parser.Spec resource !! "type")
                          = Some "LoadBalancer")
             then [rules.publicLoadBalancerFinding resource] else [])) as HLB.
  { unfold rules.CheckPublicLoadBalancer.
    destruct (String.eqb_spec (parser.Kind resource) "Service") as [Ek|Ek];
      cbn [negb]; [|by rewrite decide_False by tauto].
    destruct (default false _) eqn:Ed; cbn [negb].
    - destruct (parser.asString (parser.Spec resource !! "type")) as [svcType|].
      + destruct (String.eqb_spec svcType "LoadBalancer") as [->|El].
        * rewrite decide_True; [done|]. split; [done|]. split; [by apply Hns|done].
        * rewrite decide_False; [done|]. intros (_ & _ & ?); simplify_eq.
      + rewrite decide_False; [done|]. intros (_ & _ & ?); done.
    - rewrite decide_False; [done|]. intros (_ & H & _).
      apply Hns in H. congruence. }
  assert (rules.CheckNodePort resource
          = (if decide (parser.Kind resource = "Service"
                        ∧ parser.asString (parser.Spec resource !! "type")
                          = Some "NodePort"
                        ∧ parser.Annotations (parser.Metadata resource)
                            !! "danger-scan/nodeport-justified" = None)
             then [rules.nodePortFinding resource] else [])) as HNP.
  { unfold rules.CheckNodePort.
    destruct (String.eqb_spec (parser.Kind resource) "Service") as [Ek|Ek];
      cbn [negb]; [|by rewrite decide_False by tauto].
    destruct (parser.asString (parser.Spec resource !! "type")) as [svcType|].
    - destruct (String.eqb_spec svcType "NodePort") as [->|En].
      + destruct (parser.Annotations (parser.Metadata resource)
                    !! "danger-scan/nodeport-justified") eqn:Ea.
        * rewrite decide_False; [done|]. intros (_ & _ & ?); done.
        * by rewrite decide_True.
      + rewrite decide_False; [done|]. intros (_ & ? & _); simplify_eq.
    - rewrite decide_False; [done|]. intros (_ & ? & _); done. }
  split; [done|]. split; [done|].
  rewrite HLB, HNP. repeat case_decide; auto.
  destruct_and?. congruence.
Qed.

(** ** What triggers the pod-spec rules *)

Lemma range_return_ext {A R : Type} (body body' : A → option R) (l : list A) :
  (∀ x, body x = body' x) → range_return body l = range_return body' l.
Proof.
  intros H. induction l as [|x l IH]; [done|]. simpl. by rewrite H, IH.
Qed.

(** X25. The two container rules on flags: each reports its one finding
    exactly when some container of the pod spec has the flag set to the
    boolean [true] in its securityContext; a flag that is absent, [false]
    or not a boolean never triggers. *)
Theorem container_flag_rules_trigger (resource : parser.K8sResource) :
  rules.CheckPrivilegedContainer resource
  = (if existsb privilegedContainer (podContainers resource)
     then [rules.privilegedFinding resource] else [])
  ∧ rules.CheckPrivilegeEscalation resource
    = (if existsb escalatingContainer (podContainers resource)
       then [rules.privilegeEscalationFinding resource] else []).
Proof.
  unfold rules.CheckPrivilegedContainer, rules.CheckPrivilegeEscalation,
    podContainers.
  destruct (parser.GetPodSpec resource) as [podSpec|]; [|done].
  destruct (parser.asSeq (podSpec !! "containers")) as [containers|]; [|done].
  cbn [from_option id]. split.
  - rewrite <- range_return_test. f_equal. apply range_return_ext.
    intros c. unfold privilegedContainer. by repeat case_match.
  - rewrite <- range_return_test. f_equal. apply range_return_ext.
    intros c. unfold escalatingContainer. by repeat case_match.
Qed.

(** X26. The docker-socket rule reports its one finding exactly when some
    volume has a [hostPath] mapping whose [path] string contains
    "/var/run/docker.sock"; and whenever it reports, the hostpath-volume
    rule reports too. *)
Theorem CheckDockerSocket_trigger (resource : parser.K8sResource) :
  rules.CheckDockerSocket resource
  = (if existsb dockerSocketVolume (podVolumes resource)
     then [rules.dockerSocketFinding resource] else [])
  ∧ (existsb dockerSocketVolume (podVolumes resource) = true →
     rules.CheckHostPath resource = [rules.hostPathFinding resource]).
Proof.
  unfold rules.CheckDockerSocket, rules.CheckHostPath, podVolumes.
  destruct (parser.GetPodSpec resource) as [podSpec|]; [|done].
  destruct (parser.asSeq (podSpec !! "volumes")) as [volumes|]; [|done].
  cbn [from_option id]. split.
  - rewrite <- range_return_test. f_equal. apply range_return_ext.
    intros v. unfold dockerSocketVolume. by repeat case_match.
  - induction volumes as [|v volumes IH]; [done|].
    cbn [existsb range_return].
    destruct (dockerSocketVolume v) eqn:Ev; cbn [orb].
    + intros _. unfold dockerSocketVolume in Ev.
      destruct (parser.asMap (Some v)) as [volume|]; [|done].
      by destruct (volume !! "hostPath").
    + intros H. destruct (parser.asMap (Some v)) as [volume|]; [|by apply IH].
      destruct (volume !! "hostPath"); [done|by apply IH].
Qed.

Lemma CheckDockerSocket_trigger_witness :
  rules.CheckHostPath podDockerSocket = [rules.hostPathFinding podDockerSocket].
Proof.
  apply (proj2 (CheckDockerSocket_trigger podDockerSocket)). reflexivity.
Defined.

(** *** Image references *)

Lemma string_length_app (p q : string) :
  String.length (p +:+ q) = String.length p + String.length q.
Proof. induction p as [|c p IH]; [done|]. rewrite join_cons. simpl. by rewrite IH. Qed.

Lemma substring_whole (q : string) : String.substring 0 (String.length q) q = q.
Proof. induction q as [|c q IH]; [done|]. simpl. by rewrite IH. Qed.

Lemma substring_after (p q : string) :
  String.substring (String.length p) (String.length q) (p +:+ q) = q.
Proof.
  induction p as [|c p IH]; [apply substring_whole|].
  rewrite join_cons. simpl. exact IH.
Qed.

Lemma substring_split (s : string) (n : nat) :
  n ≤ String.length s →
  s = String.substring 0 n s +:+ String.substring n (String.length s - n) s.
Proof.
  revert n. induction s as [|c s IH]; intros [|n] Hn; simpl in *; try done;
    try lia.
  - by rewrite substring_whole.
  - rewrite join_cons. f_equal. apply IH. lia.
Qed.

(** [strings.HasSuffix] holds exactly of the strings that end with the
    suffix. *)
Lemma HasSuffix_iff (s suffix : string) :
  strings.HasSuffix s suffix = true ↔ ∃ p, s = p +:+ suffix.
Proof.
  unfold strings.HasSuffix. rewrite andb_true_iff, Nat.leb_le, String.eqb_eq.
  split.
  - intros [Hlen Hsub].
    exists (String.substring 0 (String.length s - String.length suffix) s).
    pose proof (substring_split s (String.length s - String.length suffix)) as H.
    replace (String.length s - (String.length s - String.length suffix))
      with (String.length suffix) in H by lia.
    rewrite Hsub in H. apply H. lia.
  - intros [p ->]. rewrite string_length_app. split; [lia|].
    replace (String.length p + String.length suffix - String.length suffix)
      with (String.length p) by lia.
    apply substring_after.
Qed.

(** X27. The latest-image-tag rule reports its one finding exactly when
    some container of the pod spec has an [image] string that ends in
    ":latest" or holds no colon; an image with a colon anywhere else (a
    registry port, a digest, another tag) is not reported. *)
Theorem CheckLatestTag_trigger (resource : parser.K8sResource) :
  (rules.CheckLatestTag resource = [rules.latestTagFinding resource]
   ↔ Exists floatingImage (podContainers resource))
  ∧ (rules.CheckLatestTag resource = []
     ↔ ¬ Exists floatingImage (podContainers resource)).
Proof.
  set (test := λ c : parser.Value,
         match parser.asMap (Some c) with
         | Some container =>
             match parser.asString (container !! "image") with
             | Some image =>
                 strings.HasSuffix image ":latest"
                 || negb (strings.Contains image ":")
             | None => false
             end
         | None => false
         end).
  assert (∀ c, test c = true ↔ floatingImage c) as Htest.
  { intros c. unfold test, floatingImage, latestOrUntagged, sepFree. split.
    - destruct c as [| | | | | |container]; cbn [parser.asMap]; try done.
      destruct (container !! "image") as [[| | | |image| |]|] eqn:E;
        cbn [parser.asString]; try done.
      rewrite orb_true_iff, HasSuffix_iff, negb_true_iff.
      intros H. by exists container, image.
    - intros (container & image & -> & Himg & H). cbn [parser.asMap].
      rewrite Himg. cbn [parser.asString].
      by rewrite orb_true_iff, HasSuffix_iff, negb_true_iff. }
  assert (rules.CheckLatestTag resource
          = if existsb test (podContainers resource)
            then [rules.latestTagFinding resource] else []) as ->.
  { unfold rules.CheckLatestTag, podContainers.
    destruct (parser.GetPodSpec resource) as [podSpec|]; [|done].
    destruct (parser.asSeq (podSpec !! "containers")) as [containers|]; [|done].
    cbn [from_option id]. rewrite <- range_return_test. f_equal.
    apply range_return_ext. intros c. unfold test. by repeat case_match. }
  pose proof (existsb_Exists test floatingImage (podContainers resource) Htest)
    as Hex.
  destruct (existsb test (podContainers resource)).
  - split; split; try done; intros; tauto.
  - split; split; try done; intros H.
    + apply Hex in H. done.
    + intros H'. apply Hex in H'. done.
Qed.

(** ** Rule 4 on non-root containers *)

(** X28. The runs-as-root rule reports nothing when every container of the
    pod spec either has an effective [runAsNonRoot: true] (its own, or the
    pod's when it sets none), or has a securityContext of its own and an
    effective [runAsUser] that is set and is neither 0 nor -1. *)
Theorem CheckRunsAsRoot_silent (resource : parser.K8sResource) :
  Forall (nonRootContainer (podSecurityContext resource)) (podContainers resource) →
  rules.CheckRunsAsRoot resource = [].
Proof.
  unfold rules.CheckRunsAsRoot, podSecurityContext, podContainers.
  destruct (parser.GetPodSpec resource) as [podSpec|]; [|done].
  destruct (parser.asSeq (podSpec !! "containers")) as [containers|]; [|done].
  cbn [from_option id mbind option_bind]. intros Hall.
  assert (range_return
            (rules.runsAsRootBody resource (rules.podRunAsNonRoot podSpec)
               (rules.podRunAsUser podSpec)) containers = None) as ->; [|done].
  apply range_return_None. eapply Forall_impl; [exact Hall|].
  intros c Hc. unfold rules.runsAsRootBody.
  destruct c as [| | | | | |container]; cbn [parser.asMap]; try done.
  specialize (Hc container eq_refl). cbv zeta in Hc.
  unfold rules.podRunAsNonRoot, rules.podRunAsUser.
  unfold explicitRunAsNonRoot, explicitRunAsUser, effective in Hc.
  destruct (parser.asMap (container !! "securityContext")) as [sc|];
    cbn [mbind option_bind] in Hc.
  - destruct (parser.asBool (sc !! "runAsNonRoot")) as [[]|];
      destruct (parser.asInt (sc !! "runAsUser")) as [u|];
      destruct (parser.asMap (podSpec !! "securityContext")) as [psc|];
      cbn [mbind option_bind] in Hc;
      try destruct (parser.asBool (psc !! "runAsNonRoot")) as [[]|];
      try destruct (parser.asInt (psc !! "runAsUser")) as [pu|];
      cbn [negb andb orb]; try done;
      destruct Hc as [Hc|(_ & uid & Hc & H0 & H1)]; simplify_eq;
      repeat match goal with
      | |- context [(?x =? ?y)%Z] => destruct (Z.eqb_spec x y)
      end; cbn [negb andb orb]; done.
  - destruct Hc as [Hc|([? ?] & _)]; [|done].
    destruct (parser.asMap (podSpec !! "securityContext")) as [psc|];
      cbn [mbind option_bind] in Hc; [|done].
    by rewrite Hc.
Qed.

Lemma CheckRunsAsRoot_silent_witness : rules.CheckRunsAsRoot podNonRoot = [].
Proof.
  apply CheckRunsAsRoot_silent.
  apply Forall_cons_2; [|apply Forall_cons_2; [|apply Forall_nil_2]];
    intros container [= <-]; left; reflexivity.
Defined.

(** ** The formatter *)

Lemma string_app_assoc (a b c : string) : (a +:+ b) +:+ c = a +:+ (b +:+ c).
Proof. induction a as [|x a IH]; [done|]. rewrite !join_cons. by rewrite IH. Qed.

Lemma string_app_nil_r (a : string) : a +:+ "" = a.
Proof. induction a as [|x a IH]; [done|]. rewrite join_cons. by rewrite IH. Qed.

Lemma string_app_nil_l (a : string) : "" +:+ a = a.
Proof. reflexivity. Qed.

Lemma writeFinding_buffer (i : nat) (f : Finding) (buffer : string) :
  output.writeFinding bufferWriter i f buffer
  = buffer +:+ (if (0 <? i)%nat then output.nl else "") +:+ findingBlock f.
Proof.
  unfold output.writeFinding, output.Fprint, findingBlock. cbn [bufferWriter output.Write fst].
  destruct (0 <? i)%nat; destruct (String.eqb_spec (Namespace f) "") as [E|E];
    cbn [negb]; [rewrite decide_True by done|rewrite decide_False by done
                |rewrite decide_True by done|rewrite decide_False by done];
    rewrite ?string_app_assoc, ?string_app_nil_l; reflexivity.
Qed.

Lemma writeSummary_buffer (summary : Summary) (buffer : string) :
  output.writeSummary bufferWriter summary buffer = buffer +:+ summaryBlock summary.
Proof.
  unfold output.writeSummary, output.Fprint, summaryBlock.
  cbn [bufferWriter output.Write fst].
  destruct (Z.ltb_spec 0 (NamespacesAffected summary));
    [rewrite decide_True by done|rewrite decide_False by lia];
    rewrite ?string_app_assoc, ?string_app_nil_r; reflexivity.
Qed.

Lemma range_index_buffer (i : nat) (findings : list Finding) (buffer : string) :
  output.range_index (output.writeFinding bufferWriter) (S i) findings buffer
  = buffer +:+ foldr (λ f rest, output.nl +:+ findingBlock f +:+ rest) "" findings.
Proof.
  revert i buffer. induction findings as [|f fs IH]; intros i buffer.
  - simpl. by rewrite string_app_nil_r.
  - cbn [output.range_index foldr]. rewrite IH, writeFinding_buffer.
    cbn [Nat.ltb Nat.leb]. by rewrite !string_app_assoc.
Qed.

Lemma concat_blocks (b : string) (bs : list string) :
  String.concat output.nl (b :: bs)
  = b +:+ foldr (λ b' rest, output.nl +:+ b' +:+ rest) "" bs.
Proof.
  revert b. induction bs as [|b' bs IH]; intros b.
  - simpl. by rewrite string_app_nil_r.
  - change (String.concat output.nl (b :: b' :: bs))
      with (b +:+ output.nl +:+ String.concat output.nl (b' :: bs)).
    rewrite IH. cbn [foldr]. reflexivity.
Qed.

(** X29. For every format but "json" (the unknown ones included) [Output]
    returns no error, whatever the writer answers to each [Write]; and on a
    writer that appends to a buffer it appends exactly the human report:
    the blocks of the findings separated by an empty line and the summary
    block, or the fixed sentence when there is no finding. *)
Theorem Output_human (encodeJSON : Summary → list Finding → string)
    (format : OutputFormat) (findings : list Finding) (summary : Summary) :
  format ≠ FormatJSON →
  (∀ (W : Type) (io : output.Writer W) (w : W),
     snd (output.Output io encodeJSON (output.NewFormatter w format)
            findings summary) = None)
  ∧ (∀ buffer : string,
       fst (output.Output bufferWriter encodeJSON
              (output.NewFormatter buffer format) findings summary)
       = buffer +:+ humanText findings summary).
Proof.
  intros Hfmt. apply String.eqb_neq in Hfmt.
  split.
  - intros W io w. unfold output.Output, output.NewFormatter.
    cbn [output.format]. rewrite Hfmt.
    unfold output.outputHuman. by repeat case_match.
  - intros buffer. unfold output.Output, output.NewFormatter.
    cbn [output.format]. rewrite Hfmt.
    assert (output.outputHuman bufferWriter
              {| output.writer := buffer; output.format := format |}
              findings summary
            = (buffer +:+ humanText findings summary, None)) as ->;
      [|by repeat case_match].
    unfold output.outputHuman. cbn [output.writer].
    destruct findings as [|f fs]; [done|].
    cbn [length Nat.eqb output.range_index humanText].
    rewrite range_index_buffer, writeSummary_buffer, writeFinding_buffer.
    cbn [Nat.ltb Nat.leb]. rewrite fmap_cons, concat_blocks.
    assert (foldr (λ b' rest, output.nl +:+ b' +:+ rest) "" (findingBlock <$> fs)
            = foldr (λ g rest, output.nl +:+ findingBlock g +:+ rest) "" fs) as ->.
    { induction fs as [|g gs IH]; [done|].
      cbn [foldr fmap list_fmap]. by rewrite IH. }
    by rewrite string_app_nil_l, !string_app_assoc.
Qed.

Lemma Output_human_witness :
  snd (output.Output brokenWriter sampleEncodeJSON
         (output.NewFormatter 0 "yaml")
         [sampleFinding High "Pod" "api" "prod"]
         (GetSummary [sampleFinding High "Pod" "api" "prod"])) = None.
Proof.
  apply (proj1 (Output_human sampleEncodeJSON "yaml"
                  [sampleFinding High "Pod" "api" "prod"]
                  (GetSummary [sampleFinding High "Pod" "api" "prod"])
                  ltac:(discriminate))).
Defined.

(** ** The command, from the parsed arguments to the exit code *)

Lemma scanAll_unsupported (rules : list rules.Rule) (rs : list parser.K8sResource) :
  Forall (λ r, parser.IsSupportedKind (parser.Kind r) = false) rs →
  scanAll rules rs = [].
Proof.
  intros H. unfold scanAll.
  assert (filter (λ r, parser.IsSupportedKind (parser.Kind r) = true) rs = [])
    as ->; [|done].
  apply elem_of_nil_inv. intros r [Hs Hr]%list_elem_of_filter.
  rewrite Forall_forall in H. rewrite (H r Hr) in Hs. discriminate.
Qed.

(** X30. The exit code of a run.  It is the error code 3 when loading
    fails and when a scan loads no resource at all; otherwise it is
    [GetExitCode] of the findings, except that with the JSON format a failed
    write turns it into 3.  With the human format a failed write changes
    nothing, a diff never fails for want of resources, and a scan that
    loads only resources of unsupported kinds exits with 0. *)
Theorem run_exit_code {W : Type} (io : output.Writer W)
    (encodeJSON : Summary → list Finding → string)
    (ParseFiles : list string → output.error + list parser.K8sResource)
    (command : main.Command) (jsonOutput includeMedium : bool) (stdout : W) :
  let s := NewScanner {| IncludeMedium := includeMedium;
                         OutputFormat_ := if jsonOutput then FormatJSON
                                          else FormatHuman |} in
  let code := λ findings,
    if jsonOutput
    then match snd (output.Write io stdout
                      (encodeJSON (GetSummary findings) findings)) with
         | Some _ => ExitError
         | None => GetExitCode findings
         end
    else GetExitCode findings in
  snd (main.run io encodeJSON ParseFiles command jsonOutput includeMedium stdout)
  = match command with
    | main.CmdScan path paths =>
        match ParseFiles (path :: paths) with
        | inl _ => ExitError
        | inr [] => ExitError
        | inr resources => code (Findings (Scan s resources))
        end
    | main.CmdDiff oldPath newPath =>
        match ParseFiles [oldPath], ParseFiles [newPath] with
        | inr old, inr new => code (Findings (Diff s old new))
        | _, _ => ExitError
        end
    end
  ∧ (∀ path paths resources,
       command = main.CmdScan path paths → jsonOutput = false →
       ParseFiles (path :: paths) = inr resources → resources ≠ [] →
       Forall (λ r, parser.IsSupportedKind (parser.Kind r) = false) resources →
       snd (main.run io encodeJSON ParseFiles command jsonOutput includeMedium stdout)
       = ExitOK).
Proof.
  cbv zeta.
  assert (∀ (format : OutputFormat) findings summary,
            format = FormatHuman →
            snd (output.Output io encodeJSON (output.NewFormatter stdout format)
                   findings summary) = None) as Hhuman.
  { intros format findings summary ->. unfold output.Output, output.outputHuman.
    cbn. by repeat case_match. }
  assert (∀ findings summary,
            output.Output io encodeJSON (output.NewFormatter stdout FormatJSON)
              findings summary
            = output.Write io stdout (encodeJSON summary findings)) as Hjson.
  { intros. reflexivity. }
  split.
  - unfold main.run, main.runScan, main.runDiff.
    destruct command as [path paths|oldPath newPath].
    + destruct (ParseFiles (path :: paths)) as [err|[|r rs]]; [done|done|].
      cbn [length Nat.eqb OutputFormat_]. destruct jsonOutput.
      * rewrite Hjson. by destruct (output.Write io stdout _) as [? []].
      * pose proof (Hhuman FormatHuman
                      (Findings (Scan (NewScanner
                         {| IncludeMedium := includeMedium;
                            OutputFormat_ := FormatHuman |}) (r :: rs)))
                      (GetSummary (Findings (Scan (NewScanner
                         {| IncludeMedium := includeMedium;
                            OutputFormat_ := FormatHuman |}) (r :: rs))))
                      eq_refl) as H.
        destruct (output.Output _ _ _ _ _) as [? []]; [done|done].
    + destruct (ParseFiles [oldPath]) as [err|old]; [done|].
      destruct (ParseFiles [newPath]) as [err|new]; [done|].
      cbn [OutputFormat_]. destruct jsonOutput.
      * rewrite Hjson. by destruct (output.Write io stdout _) as [? []].
      * pose proof (Hhuman FormatHuman
                      (Findings (Diff (NewScanner
                         {| IncludeMedium := includeMedium;
                            OutputFormat_ := FormatHuman |}) old new))
                      (GetSummary (Findings (Diff (NewScanner
                         {| IncludeMedium := includeMedium;
                            OutputFormat_ := FormatHuman |}) old new)))
                      eq_refl) as H.
        destruct (output.Output _ _ _ _ _) as [? []]; [done|done].
  - intros path paths resources -> -> Hparse Hne Hkinds.
    unfold main.run, main.runScan. rewrite Hparse.
    destruct resources as [|r rs]; [done|].
    cbn [length Nat.eqb OutputFormat_].
    assert (Findings (Scan (NewScanner
              {| IncludeMedium := includeMedium; OutputFormat_ := FormatHuman |})
              (r :: rs)) = []) as ->.
    { rewrite Scan_scanAll, scanAll_unsupported by done.
      by destruct (IncludeMedium _). }
    pose proof (Hhuman FormatHuman [] (GetSummary []) eq_refl) as H.
    destruct (output.Output _ _ _ _ _) as [? []]; [done|done].
Qed.

Lemma run_exit_code_witness :
  snd (main.run brokenWriter sampleEncodeJSON sampleParseFiles
         (main.CmdScan "only-configmap.yaml" []) false true 0)
  = ExitOK.
Proof.
  apply (proj2 (run_exit_code brokenWriter sampleEncodeJSON sampleParseFiles
                  (main.CmdScan "only-configmap.yaml" []) false true 0)
           "only-configmap.yaml" [] [configMap]);
    try reflexivity; [discriminate|].
  repeat constructor.
Defined.
